(** * IOT-project: the sensor/actuator control loop, its alert gate and its
    telemetry client

    A shallow embedding of [src/main.py] and [src/iot_integrations.py],
    and of the loops of [src/motionDetection.py] and [src/keypad.py].

    Conventions of the embedding.
    - Python floats (clock readings of [time.time()], distances,
      temperatures) are exact rationals [Q]; comparisons are made with the
      boolean tests [qlt] and [qle], which compute.
    - Python dictionaries with string keys are [gmap string _]; [d.get(k)] is
      the lookup [d !! k], [d.get(k, 0)] is [default 0 (d !! k)].
    - The outside world (pin levels, sensor results, HTTP outcomes, the
      clock) enters every operation as an explicit argument; what the
      operation does to the outside world (pin writes, messages handed to
      Telegram, requests issued) is part of its result.
    - Console output ([print]) and the LCD are not modelled. *)

From Stdlib Require Import QArith Lqa.
From stdpp Require Import gmap strings list fin_maps pretty.

Local Open Scope Q_scope.

(** ** Comparisons on rationals, as booleans *)

Definition qlt (a b : Q) : bool :=
  match a ?= b with Lt => true | _ => false end.

Definition qle (a b : Q) : bool :=
  match a ?= b with Gt => false | _ => true end.

(** Python's two-argument [max] and [min]: the first argument is kept unless
    the second is strictly larger (smaller). *)

Definition py_max (a b : Q) : Q := if qlt a b then b else a.
Definition py_min (a b : Q) : Q := if qlt b a then b else a.

(** ** Configuration constants of main.py *)

Definition BEAKER_HEIGHT_CM : Q := 10.
Definition WATER_LOW_DISTANCE_CM : Q := 7.
Definition TEMP_MIN_C : Q := -20.
Definition TEMP_MAX_C : Q := 80.
Definition DHT_PERIOD : Q := 5.

(** ** calc_water_height *)

Definition calc_water_height (distance_cm : Q) : Q :=
  let h := BEAKER_HEIGHT_CM - distance_cm in
  py_max 0 (py_min BEAKER_HEIGHT_CM h).

(** ** HTTP outcomes

    What a call of [requests.get] / [requests.post] can do: raise a
    [requests.RequestException], or return a response.  Of a response the
    code looks at [status_code] (directly, or through [r.ok], which the
    requests library makes false exactly for 400 <= status_code < 600) and
    at whether [r.text.strip().isdigit()] holds. *)

Inductive http_outcome :=
  | RequestException
  | Response (status_code : Z) (text_isdigit : bool).

(** ** Telegram.send *)

Definition Telegram_send (outcome : http_outcome) : bool :=
  match outcome with
  | Response status_code _ =>
      negb ((400 <=? status_code)%Z && (status_code <? 600)%Z)
  | RequestException => false
  end.

(** ** AlertGate

    [St] is the type of the states handed to the gate ([Any] in the source;
    both callers in main.py pass booleans) and [Msg] the type of the
    messages.  A state is never Python's [None]: [last_state.get(key)] is
    [None] exactly when the key is absent. *)

Section AlertGate.
Context {St : Type} `{EqDecision St} {Msg : Type}.

Record AlertGate := mkAlertGate {
  cooldown_sec : Z;
  last_sent : gmap string Q;
  last_state : gmap string St
}.

(** [AlertGate(tg)]: the dataclass defaults. *)
Definition AlertGate_new : AlertGate :=
  {| cooldown_sec := 60; last_sent := ∅; last_state := ∅ |}.

Definition changed (g : AlertGate) (key : string) (state : St) : bool :=
  bool_decide (last_state g !! key ≠ Some state).

Definition recently (g : AlertGate) (now : Q) (key : string) : bool :=
  qlt (now - default 0 (last_sent g !! key)) (inject_Z (cooldown_sec g)).

(** [maybe_send]: [now] is the reading of [time.time()], [outcome] what the
    POST to Telegram does if it is made.  The result is the gate afterwards
    and the messages handed to [tg.send] (none or one). *)
Definition maybe_send (g : AlertGate) (now : Q) (key : string) (state : St)
    (msg_on_change : Msg) (outcome : http_outcome) : AlertGate * list Msg :=
  if changed g key state && negb (recently g now key) then
    let g1 :=
      if Telegram_send outcome
      then {| cooldown_sec := cooldown_sec g;
              last_sent := <[key := now]> (last_sent g);
              last_state := last_state g |}
      else g in
    ({| cooldown_sec := cooldown_sec g1;
        last_sent := last_sent g1;
        last_state := <[key := state]> (last_state g1) |},
     [msg_on_change])
  else (g, []).

(** A call of [maybe_send] with what the world answers to it. *)
Record gate_call := mkCall {
  call_now : Q;
  call_key : string;
  call_state : St;
  call_msg : Msg;
  call_outcome : http_outcome
}.

Definition do_call (g : AlertGate) (c : gate_call) : AlertGate * list Msg :=
  maybe_send g (call_now c) (call_key c) (call_state c) (call_msg c)
             (call_outcome c).

(** The call handed a message to Telegram. *)
Definition sends (g : AlertGate) (c : gate_call) : bool :=
  match snd (do_call g c) with [] => false | _ => true end.

(** The call handed a message to Telegram and Telegram took it. *)
Definition sends_ok (g : AlertGate) (c : gate_call) : bool :=
  sends g c && Telegram_send (call_outcome c).

(** A sequence of calls, one after the other, on the same gate. *)
Fixpoint run (g : AlertGate) (cs : list gate_call) : AlertGate :=
  match cs with
  | [] => g
  | c :: cs' => run (fst (do_call g c)) cs'
  end.

(** No call of [cs], run from [g], is a successful send for [key]. *)
Fixpoint no_ok_send_for (key : string) (g : AlertGate)
    (cs : list gate_call) : bool :=
  match cs with
  | [] => true
  | c :: cs' =>
      negb (sends_ok g c && bool_decide (call_key c = key))
      && no_ok_send_for key (fst (do_call g c)) cs'
  end.

End AlertGate.

Arguments AlertGate St : clear implicits.
Arguments gate_call St Msg : clear implicits.

(** ** Python values stored in the readings dictionary *)

Inductive pyval :=
  | PyNone
  | PyInt (z : Z)
  | PyFloat (q : Q)
  | PyStr (s : string).

Definition is_not_None (v : pyval) : bool :=
  match v with PyNone => false | _ => true end.

(** ** ThingSpeakClient *)

Record ThingSpeakClient := mkThingSpeakClient {
  write_key : string;
  min_interval_sec : Z;
  _last_push : Q
}.

(** [ThingSpeakClient(write_key=k)]: the dataclass defaults. *)
Definition ThingSpeakClient_new (k : string) : ThingSpeakClient :=
  {| write_key := k; min_interval_sec := 15; _last_push := 0 |}.

Definition mapping : list string :=
  [ "temp_c"; "humidity"; "water_height"; "soil_dry";
    "pir_active"; "distance_cm"; "motor_on"; "reserved" ]%string.

Definition field_name (idx : nat) : string :=
  ("field" +:+ pretty idx)%string.

(** The loop [for idx, key in enumerate(mapping, start=1)]. *)
Fixpoint fill_payload (idx : nat) (keys : list string)
    (fields payload : gmap string pyval) : gmap string pyval :=
  match keys with
  | [] => payload
  | key :: rest =>
      let payload' :=
        match fields !! key with
        | Some v =>
            if is_not_None v then <[field_name idx := v]> payload
            else payload
        | None => payload
        end in
      fill_payload (S idx) rest fields payload'
  end.

Definition build_payload (c : ThingSpeakClient)
    (fields : gmap string pyval) : gmap string pyval :=
  fill_payload 1 mapping fields {[ "api_key"%string := PyStr (write_key c) ]}.

(** What one call of [push] yields: the client afterwards, the returned
    boolean, and the GET requests issued (none or one, by their
    parameters). *)
Record push_result := mkPushResult {
  pr_client : ThingSpeakClient;
  pr_ret : bool;
  pr_requests : list (gmap string pyval)
}.

(** [push]: [now] is the reading of [time.time()], [outcome] what the GET
    does if it is made. *)
Definition push (c : ThingSpeakClient) (now : Q)
    (fields : gmap string pyval) (outcome : http_outcome) : push_result :=
  if qlt (now - _last_push c) (inject_Z (min_interval_sec c)) then
    {| pr_client := c; pr_ret := false; pr_requests := [] |}
  else
    let payload := build_payload c fields in
    match outcome with
    | Response status_code text_isdigit =>
        {| pr_client := {| write_key := write_key c;
                           min_interval_sec := min_interval_sec c;
                           _last_push := now |};
           pr_ret := (status_code =? 200)%Z && text_isdigit;
           pr_requests := [payload] |}
    | RequestException =>
        {| pr_client := c; pr_ret := false; pr_requests := [payload] |}
    end.

(** A call of [push] with what the world answers to it. *)
Record push_call := mkPushCall {
  pc_now : Q;
  pc_fields : gmap string pyval;
  pc_outcome : http_outcome
}.

Definition do_push (c : ThingSpeakClient) (p : push_call) : push_result :=
  push c (pc_now p) (pc_fields p) (pc_outcome p).

(** A sequence of pushes on one client: the returned booleans, in order. *)
Fixpoint push_all (c : ThingSpeakClient) (ps : list push_call) : list bool :=
  match ps with
  | [] => []
  | p :: ps' => pr_ret (do_push c p) :: push_all (pr_client (do_push c p)) ps'
  end.

(** The clock readings of the calls that returned [True], in order. *)
Fixpoint accepted_times (c : ThingSpeakClient) (ps : list push_call)
    : list Q :=
  match ps with
  | [] => []
  | p :: ps' =>
      let r := do_push c p in
      if pr_ret r then pc_now p :: accepted_times (pr_client r) ps'
      else accepted_times (pr_client r) ps'
  end.

(** The items of [ts] lie at least [gap] apart, each from all later ones. *)
Fixpoint spaced (gap : Q) (ts : list Q) : Prop :=
  match ts with
  | [] => True
  | t :: ts' => Forall (fun u => gap <= u - t) ts' /\ spaced gap ts'
  end.

(** One pass through the loop of [thingspeak_thread] when a client is
    configured: [push] with a copy of [readings] as its keyword arguments. *)
Definition thingspeak_iteration (c : ThingSpeakClient) (now : Q)
    (readings : gmap string pyval) (outcome : http_outcome) : push_result :=
  push c now readings outcome.

(** An OK answer of ThingSpeak: status 200 and an entry number as text. *)
Definition http_ok : http_outcome := Response 200 true.

Definition push_at (t : Q) : push_call :=
  {| pc_now := t; pc_fields := ∅; pc_outcome := http_ok |}.

(** ** main.py: the shared state

    GPIO levels are booleans: [true] is [GPIO.HIGH], [false] is [GPIO.LOW]. *)

Definition PIR_ACTIVE_LEVEL : bool := false.
Definition MOISTURE_IS_DRY_LEVEL : bool := true.

(** The four alert texts of [sensors_thread]; the first one carries the
    distance it prints. *)
Inductive alert_msg :=
  | WaterLowMsg (distance : Q)   (* "Water LOW (distance ... cm)" *)
  | WaterOkMsg                   (* "Water OK again." *)
  | SoilDryMsg                   (* "Soil is DRY - motor turned ON." *)
  | SoilMoistMsg.                (* "Soil MOIST - motor turned OFF." *)

Definition is_water_msg (m : alert_msg) : bool :=
  match m with WaterLowMsg _ | WaterOkMsg => true | _ => false end.

(** The module-level state of main.py, with [last_dht_time], the one local
    of [sensors_thread] that survives an iteration.  [motor_pin] is the level
    last written to [DC_MOTOR_PIN].  Two fields record what the loop hands
    to its collaborators, oldest first: [signalled] the (key, state) pairs
    passed to [alerts.maybe_send], [telegram_outbox] the messages passed to
    [tg.send]. *)
Record World := mkWorld {
  readings : gmap string pyval;
  motor_pin : bool;
  alerts : option (AlertGate bool);
  last_distance_cm : option Q;
  last_dht_time : Q;
  signalled : list (string * bool);
  telegram_outbox : list alert_msg
}.

Definition readings_init : gmap string pyval :=
  <["temp_c"%string := PyNone]> (
  <["humidity"%string := PyNone]> (
  <["distance_cm"%string := PyNone]> (
  <["water_height"%string := PyNone]> (
  <["soil_dry"%string := PyNone]> (
  <["pir_active"%string := PyNone]> (
  <["motor_on"%string := PyInt 0]> ∅)))))).

(** The state at start-up; [gate] is [None] when Telegram is not
    configured. *)
Definition World_init (gate : option (AlertGate bool)) : World :=
  {| readings := readings_init; motor_pin := false; alerts := gate;
     last_distance_cm := None; last_dht_time := 0;
     signalled := []; telegram_outbox := [] |}.

(** [readings[key] = v] *)
Definition set_reading (key : string) (v : pyval) (w : World) : World :=
  {| readings := <[key := v]> (readings w); motor_pin := motor_pin w;
     alerts := alerts w; last_distance_cm := last_distance_cm w;
     last_dht_time := last_dht_time w; signalled := signalled w;
     telegram_outbox := telegram_outbox w |}.

(** [GPIO.output(DC_MOTOR_PIN, level)] *)
Definition set_motor_pin (level : bool) (w : World) : World :=
  {| readings := readings w; motor_pin := level;
     alerts := alerts w; last_distance_cm := last_distance_cm w;
     last_dht_time := last_dht_time w; signalled := signalled w;
     telegram_outbox := telegram_outbox w |}.

Definition set_last_distance_cm (d : Q) (w : World) : World :=
  {| readings := readings w; motor_pin := motor_pin w;
     alerts := alerts w; last_distance_cm := Some d;
     last_dht_time := last_dht_time w; signalled := signalled w;
     telegram_outbox := telegram_outbox w |}.

Definition set_last_dht_time (t : Q) (w : World) : World :=
  {| readings := readings w; motor_pin := motor_pin w;
     alerts := alerts w; last_distance_cm := last_distance_cm w;
     last_dht_time := t; signalled := signalled w;
     telegram_outbox := telegram_outbox w |}.

(** [if alerts: alerts.maybe_send(key, state, msg)] *)
Definition alerts_maybe_send (now : Q) (key : string) (state : bool)
    (msg : alert_msg) (outcome : http_outcome) (w : World) : World :=
  match alerts w with
  | None => w
  | Some g =>
      let r := maybe_send g now key state msg outcome in
      {| readings := readings w; motor_pin := motor_pin w;
         alerts := Some (fst r); last_distance_cm := last_distance_cm w;
         last_dht_time := last_dht_time w;
         signalled := signalled w ++ [(key, state)];
         telegram_outbox := telegram_outbox w ++ snd r |}
  end.

(** ** main.py: helpers *)

Definition py_bool_int (b : bool) : pyval := PyInt (if b then 1 else 0).

Definition slide_switch_on (level : bool) : bool := eqb level true.

Definition pir_active (level : bool) (w : World) : bool * World :=
  let val := eqb level PIR_ACTIVE_LEVEL in
  (val, set_reading "pir_active" (py_bool_int val) w).

Definition motor_on (w : World) : World :=
  set_reading "motor_on" (PyInt 1) (set_motor_pin true w).

Definition motor_off (w : World) : World :=
  set_reading "motor_on" (PyInt 0) (set_motor_pin false w).

Definition moisture_is_dry (level : bool) (w : World) : bool * World :=
  let val := eqb level MOISTURE_IS_DRY_LEVEL in
  (val, set_reading "soil_dry" (py_bool_int val) w).

(** [raw] is what [Adafruit_DHT.read_retry] returned: (humidity,
    temperature), each possibly [None]. *)
Definition read_dht11_both (raw : option Q * option Q)
    : option Q * option Q :=
  let (humidity, temperature) := raw in
  match temperature with
  | None => (None, None)
  | Some t =>
      if negb (qle TEMP_MIN_C t && qle t TEMP_MAX_C) then (None, None)
      else (humidity, Some t)
  end.

Definition check_and_drive_motor (level : bool) (w : World) : World :=
  let (dry, w1) := moisture_is_dry level w in
  if dry then motor_on w1 else motor_off w1.

Definition everything_off (w : World) : World := motor_off w.

(** [handle_keypress]: [distance] is the result of
    [read_ultrasonic_distance_cm] and [dht] that of [Adafruit_DHT.read_retry]
    should the key ask for them; [None] stands for a raised exception. *)
Definition handle_keypress (key : string) (distance : option Q)
    (dht : option (option Q * option Q)) (w : World) : World :=
  if String.eqb key "1" then
    match distance with
    | None => w
    | Some d =>
        if qle d 0 then w
        else
          let height := calc_water_height d in
          set_reading "water_height" (PyFloat height)
            (set_reading "distance_cm" (PyFloat d) w)
    end
  else if String.eqb key "2" then
    match dht with
    | None => w
    | Some raw =>
        match read_dht11_both raw with
        | (_, None) => w
        | (h, Some t) =>
            let w1 := set_reading "temp_c" (PyFloat t) w in
            match h with
            | Some hv => set_reading "humidity" (PyFloat hv) w1
            | None => w1
            end
        end
    end
  else w.

(** ** main.py: one iteration of sensors_thread

    What the world supplies to one pass through the body of the [while]
    loop, in the order the body asks for it.  [None] for a sensor result
    stands for a raised exception. *)
Record iter_input := mkIterInput {
  in_switch : bool;                 (* level of SLIDE_SWITCH_PIN *)
  in_pir : bool;                    (* level of PIR_PIN *)
  in_distance : option Q;           (* read_ultrasonic_distance_cm() *)
  in_water_now : Q;                 (* clock, inside the water maybe_send *)
  in_water_outcome : http_outcome;  (* Telegram's answer, if asked *)
  in_moisture1 : bool;              (* level of MOISTURE_PIN, first read *)
  in_moisture2 : bool;              (* same pin, read by the motor helper *)
  in_soil_now : Q;                  (* clock, inside the soil maybe_send *)
  in_soil_outcome : http_outcome;   (* Telegram's answer, if asked *)
  in_now : Q;                       (* clock, before the DHT refresh *)
  in_dht : option (option Q * option Q)  (* Adafruit_DHT.read_retry(...) *)
}.

(** Lines 304-309: the ultrasonic read; [-1] replaces a failed read. *)
Definition ultrasonic_step (i : iter_input) (w : World) : Q * World :=
  match in_distance i with
  | Some d => (d, set_last_distance_cm d w)
  | None => (-1, w)
  end.

(** Lines 311-322: the water-level alert. *)
Definition water_step (i : iter_input) (distance : Q) (w : World) : World :=
  if qlt 0 distance then
    if qlt WATER_LOW_DISTANCE_CM distance then
      alerts_maybe_send (in_water_now i) "water_low" true
        (WaterLowMsg distance) (in_water_outcome i) w
    else
      alerts_maybe_send (in_water_now i) "water_low" false
        WaterOkMsg (in_water_outcome i) w
  else w.

(** Lines 327-331: moisture, motor and the soil alert. *)
Definition soil_step (i : iter_input) (w : World) : World :=
  let (was_dry, w1) := moisture_is_dry (in_moisture1 i) w in
  let w2 := check_and_drive_motor (in_moisture2 i) w1 in
  alerts_maybe_send (in_soil_now i) "soil_dry" was_dry
    (if was_dry then SoilDryMsg else SoilMoistMsg) (in_soil_outcome i) w2.

(** Lines 334-347: the periodic DHT refresh. *)
Definition dht_step (i : iter_input) (w : World) : World :=
  let now := in_now i in
  if qle DHT_PERIOD (now - last_dht_time w) then
    let w1 := set_last_dht_time now w in
    let (humidity, temperature) :=
      match in_dht i with
      | Some raw => raw
      | None => (None, None)
      end in
    match temperature with
    | Some t =>
        if qle TEMP_MIN_C t && qle t TEMP_MAX_C then
          let w2 := set_reading "temp_c" (PyFloat t) w1 in
          match humidity with
          | Some h => set_reading "humidity" (PyFloat h) w2
          | None => w2
          end
        else w1
    | None => w1
    end
  else w.

(** Lines 349-352: the ultrasonic fields of the store. *)
Definition store_step (distance height : Q) (w : World) : World :=
  set_reading "water_height" (PyFloat height)
    (set_reading "distance_cm"
       (if qlt 0 distance then PyFloat distance else PyNone) w).

(** The body of the [while] loop of [sensors_thread]. *)
Definition sensors_iteration (i : iter_input) (w : World) : World :=
  if negb (slide_switch_on (in_switch i)) then motor_off w
  else
    let (active, w1) := pir_active (in_pir i) w in
    let (distance, w2) := ultrasonic_step i w1 in
    let w3 := water_step i distance w2 in
    let height :=
      calc_water_height
        (if qlt 0 distance then distance else BEAKER_HEIGHT_CM) in
    let w4 := soil_step i w3 in
    let w5 := dht_step i w4 in
    store_step distance height w5.

(** The loop, for as many iterations as there are inputs. *)
Fixpoint sensors_thread (inputs : list iter_input) (w : World) : World :=
  match inputs with
  | [] => w
  | i :: rest => sensors_thread rest (sensors_iteration i w)
  end.

(** What an iteration handed to Telegram and to the gate. *)
Definition sent_during (w w' : World) : list alert_msg :=
  drop (length (telegram_outbox w)) (telegram_outbox w').

Definition signalled_during (w w' : World) : list (string * bool) :=
  drop (length (signalled w)) (signalled w').

(** The store entry of a key, [None] when the dictionary lacks it. *)
Definition reading (key : string) (w : World) : option pyval :=
  readings w !! key.

(** The gate's memory for a key: (last_state.get(key), last_sent.get(key)),
    or [None] when there is no gate. *)
Definition gate_entry (key : string) (w : World)
    : option (option bool * option Q) :=
  match alerts w with
  | Some g => Some (last_state g !! key, last_sent g !! key)
  | None => None
  end.

(** The ultrasonic read of an iteration failed: it raised, or it yielded a
    distance that is not positive. *)
Definition read_failed (i : iter_input) : Prop :=
  match in_distance i with
  | None => True
  | Some d => d <= 0
  end.

(** A DHT measurement failed (it raised, or gave no temperature) or its
    temperature lies outside [-20, 80]. *)
Definition temp_invalid (dht : option (option Q * option Q)) : Prop :=
  match dht with
  | None => True
  | Some (_, None) => True
  | Some (_, Some t) => t < -20 \/ 80 < t
  end.

(** ** main.py: sequences of operations on the shared state

    The threads of main.py act on the shared state through these
    operations; a history is a sequence of them, each run to its end. *)
Inductive op :=
  | OpIteration (i : iter_input)          (* one pass of sensors_thread *)
  | OpKeypress (key : string) (distance : option Q)
      (dht : option (option Q * option Q)) (* handle_keypress(key) *)
  | OpPir (level : bool)                  (* pir_active(), by the scanner *)
  | OpEverythingOff.                      (* everything_off(), by main *)

Definition apply_op (o : op) (w : World) : World :=
  match o with
  | OpIteration i => sensors_iteration i w
  | OpKeypress key distance dht => handle_keypress key distance dht w
  | OpPir level => snd (pir_active level w)
  | OpEverythingOff => everything_off w
  end.

Fixpoint apply_ops (os : list op) (w : World) : World :=
  match os with
  | [] => w
  | o :: rest => apply_ops rest (apply_op o w)
  end.

(** The part of the state that the sensors and the motor logic read and
    write, as opposed to the alert gate and the two logs. *)
Definition control_state (w : World)
    : gmap string pyval * bool * option Q * Q :=
  (readings w, motor_pin w, last_distance_cm w, last_dht_time w).

(** Two loop inputs agree on everything but Telegram's answers and the
    clock readings taken inside [maybe_send]. *)
Definition same_sensors (i1 i2 : iter_input) : Prop :=
  in_switch i1 = in_switch i2 /\ in_pir i1 = in_pir i2 /\
  in_distance i1 = in_distance i2 /\
  in_moisture1 i1 = in_moisture1 i2 /\ in_moisture2 i1 = in_moisture2 i2 /\
  in_now i1 = in_now i2 /\ in_dht i1 = in_dht i2.

(** The alert side of the state: the gate and the two logs. *)
Definition alert_state (w : World)
    : option (AlertGate bool) * list (string * bool) * list alert_msg :=
  (alerts w, signalled w, telegram_outbox w).

(** What the code ever stores under a key of [readings]. *)
Definition is_flag (v : pyval) : Prop := v = PyInt 0 \/ v = PyInt 1.

Definition well_typed (key : string) (v : pyval) : Prop :=
  if String.eqb key "temp_c" then
    v = PyNone \/ exists t, v = PyFloat t /\ TEMP_MIN_C <= t /\ t <= TEMP_MAX_C
  else if String.eqb key "humidity" then
    v = PyNone \/ exists h, v = PyFloat h
  else if String.eqb key "distance_cm" then
    v = PyNone \/ exists d, v = PyFloat d /\ 0 < d
  else if String.eqb key "water_height" then
    v = PyNone \/
    exists h, v = PyFloat h /\ 0 <= h /\ h <= BEAKER_HEIGHT_CM
  else if String.eqb key "soil_dry" then v = PyNone \/ is_flag v
  else if String.eqb key "pir_active" then v = PyNone \/ is_flag v
  else if String.eqb key "motor_on" then is_flag v
  else False.

(** The store has exactly the seven keys it starts with, each holding a
    value of the kind the code stores under it. *)
Definition store_schema (m : gmap string pyval) : Prop :=
  dom m = dom readings_init /\
  forall key v, m !! key = Some v -> well_typed key v.

(** *** The store and the motor pin, write by write

    [readings_lock] is held around single writes of the store, and the
    motor pin is written outside it: [motor_on()] is a pin write followed,
    later, by a store write.  For what concerns the store and the pin, the
    threads are sequences of these two kinds of atomic writes, which may
    interleave in any way. *)
Inductive atom :=
  | PinWrite (level : bool)                 (* GPIO.output(DC_MOTOR_PIN, _) *)
  | StoreWrite (key : string) (v : pyval).  (* with readings_lock: ... *)

(** The store and the level of the motor pin. *)
Definition run_atom (sp : gmap string pyval * bool) (a : atom)
    : gmap string pyval * bool :=
  match a with
  | PinWrite level => (sp.1, level)
  | StoreWrite key v => (<[key := v]> sp.1, sp.2)
  end.

Definition run_atoms (h : list atom) (sp : gmap string pyval * bool)
    : gmap string pyval * bool :=
  foldl run_atom sp h.

(** [motor_on()] for [true], [motor_off()] for [false]. *)
Definition motor_atoms (level : bool) : list atom :=
  [PinWrite level; StoreWrite "motor_on" (py_bool_int level)].

(** The store writes of the DHT refresh, and the timer after it. *)
Definition dht_atoms (i : iter_input) (t : Q) : list atom * Q :=
  if qle DHT_PERIOD (in_now i - t) then
    (match in_dht i with
     | Some (humidity, Some temp) =>
         if qle TEMP_MIN_C temp && qle temp TEMP_MAX_C then
           StoreWrite "temp_c" (PyFloat temp) ::
           match humidity with
           | Some h => [StoreWrite "humidity" (PyFloat h)]
           | None => []
           end
         else []
     | _ => []
     end, in_now i)
  else ([], t).

(** The pin and store writes of one iteration of [sensors_thread], in the
    order the body makes them, and the DHT timer after it; [t] is the timer
    before. *)
Definition iteration_atoms (i : iter_input) (t : Q) : list atom * Q :=
  if negb (slide_switch_on (in_switch i)) then (motor_atoms false, t)
  else
    let distance := default (-1) (in_distance i) in
    let height :=
      calc_water_height
        (if qlt 0 distance then distance else BEAKER_HEIGHT_CM) in
    let dry1 := eqb (in_moisture1 i) MOISTURE_IS_DRY_LEVEL in
    let dry2 := eqb (in_moisture2 i) MOISTURE_IS_DRY_LEVEL in
    ([StoreWrite "pir_active"
        (py_bool_int (eqb (in_pir i) PIR_ACTIVE_LEVEL));
      StoreWrite "soil_dry" (py_bool_int dry1);
      StoreWrite "soil_dry" (py_bool_int dry2)]
     ++ motor_atoms dry2
     ++ fst (dht_atoms i t)
     ++ [StoreWrite "distance_cm"
           (if qlt 0 distance then PyFloat distance else PyNone);
         StoreWrite "water_height" (PyFloat height)],
     snd (dht_atoms i t)).

(** The writes of a run of [sensors_thread]. *)
Fixpoint thread_atoms (inputs : list iter_input) (t : Q) : list atom :=
  match inputs with
  | [] => []
  | i :: rest =>
      fst (iteration_atoms i t)
      ++ thread_atoms rest (snd (iteration_atoms i t))
  end.

(** A write of another thread: a store write to a key other than
    "motor_on" (the keypad thread writes "pir_active", "distance_cm",
    "water_height", "temp_c" and "humidity"). *)
Definition other_write (a : atom) : Prop :=
  match a with
  | StoreWrite key _ => key ≠ "motor_on"%string
  | PinWrite _ => False
  end.

(** [h] is an interleaving of [l1] and [l2]: it keeps the order of each. *)
Inductive interleave {A : Type} : list A -> list A -> list A -> Prop :=
  | interleave_nil : interleave [] [] []
  | interleave_left a l1 l2 h :
      interleave l1 l2 h -> interleave (a :: l1) l2 (a :: h)
  | interleave_right a l1 l2 h :
      interleave l1 l2 h -> interleave l1 (a :: l2) (a :: h).

(** The store says "motor on" exactly when the motor pin is high. *)
Definition motor_agrees (sp : gmap string pyval * bool) : Prop :=
  sp.1 !! "motor_on"%string = Some (py_bool_int sp.2).

(** The motor commands of a history do not overlap: every pin write is
    followed by its store write before the next pin write.  [pending] is
    the level of a command whose store write is still to come. *)
Fixpoint commands_in_turn (pending : option bool) (h : list atom) : Prop :=
  match h with
  | [] => pending = None
  | PinWrite level :: rest =>
      pending = None /\ commands_in_turn (Some level) rest
  | StoreWrite key v :: rest =>
      if String.eqb key "motor_on"
      then (exists level, pending = Some level /\ v = py_bool_int level) /\
           commands_in_turn None rest
      else commands_in_turn pending rest
  end.

(** The stored distance and water height belong together: either the
    distance is unset and the height is unset or 0.0, or the distance is a
    positive float and the height is the one computed from it. *)
Definition water_consistent (w : World) : Prop :=
  (reading "distance_cm" w = Some PyNone /\
   (reading "water_height" w = Some PyNone \/
    reading "water_height" w = Some (PyFloat 0))) \/
  exists d, 0 < d /\
    reading "distance_cm" w = Some (PyFloat d) /\
    reading "water_height" w = Some (PyFloat (calc_water_height d)).

(** ** main.py: keypad_scanner_thread *)

Definition KEYPAD_LAYOUT : list (list string) :=
  [ ["1"; "2"; "3"]; ["4"; "5"; "6"]; ["7"; "8"; "9"]; ["*"; "0"; "#"] ]%string.

(** Indices of KEYPAD_ROWS and KEYPAD_COLS, as [enumerate] yields them. *)
Definition KEYPAD_ROW_IDX : list nat := [0; 1; 2; 3]%nat.
Definition KEYPAD_COL_IDX : list nat := [0; 1; 2]%nat.

(** [keypad_last_state] at start-up: four separate rows of three [False]. *)
Definition keypad_last_state_init : list (list bool) :=
  replicate 4 (replicate 3 false).

(** What the world supplies to one pass of the scanner: the PIR level, for
    every cell (row index, column index) the level of the row pin while the
    column is driven low, and the sensor results for the key of that cell
    should it be dispatched. *)
Record scan_input := mkScanInput {
  sc_pir : bool;
  sc_row_level : nat -> nat -> bool;
  sc_distance : nat -> nat -> option Q;
  sc_dht : nat -> nat -> option (option Q * option Q)
}.

(** A row pin reads LOW: the key of the cell is down. *)
Definition pressed_now (inp : scan_input) (r c : nat) : bool :=
  eqb (sc_row_level inp r c) false.

(** The body of the inner [for] loop for the cell in row [r], column [c].
    [None] stands for an [IndexError].  The wait for the release of the key
    (lines 280-281) reads the pin and sleeps, and changes no state: it is
    taken to have ended. *)
Definition scan_cell (inp : scan_input) (active : bool) (r c : nat)
    (st : list (list bool) * World) : option (list (list bool) * World) :=
  let (ks, w) := st in
  row ← ks !! r;
  pressed_before ← row !! c;
  w' ← (if pressed_now inp r c && negb pressed_before then
          layout_row ← KEYPAD_LAYOUT !! r;
          key ← layout_row !! c;
          Some (if active
                then handle_keypress key (sc_distance inp r c)
                       (sc_dht inp r c) w
                else w)
        else Some w);
  Some (<[r := <[c := pressed_now inp r c]> row]> ks, w').

(** The inner loop: the rows of one column. *)
Fixpoint scan_rows (inp : scan_input) (active : bool) (c : nat)
    (rows : list nat) (st : list (list bool) * World)
    : option (list (list bool) * World) :=
  match rows with
  | [] => Some st
  | r :: rest => st' ← scan_cell inp active r c st;
                 scan_rows inp active c rest st'
  end.

(** The outer loop: the columns. *)
Fixpoint scan_cols (inp : scan_input) (active : bool) (cols : list nat)
    (st : list (list bool) * World) : option (list (list bool) * World) :=
  match cols with
  | [] => Some st
  | c :: rest => st' ← scan_rows inp active c KEYPAD_ROW_IDX st;
                 scan_cols inp active rest st'
  end.

(** One pass through the [while] loop of [keypad_scanner_thread]. *)
Definition keypad_scan (inp : scan_input) (st : list (list bool) * World)
    : option (list (list bool) * World) :=
  let (ks, w) := st in
  let (active, w1) := pir_active (sc_pir inp) w in
  scan_cols inp active KEYPAD_COL_IDX (ks, w1).

(** The cells in the order the scanner visits them: column by column. *)
Definition scan_order : list (nat * nat) :=
  c ← KEYPAD_COL_IDX; r ← KEYPAD_ROW_IDX; [(r, c)].

(** [keypad_last_state[r][c]]; [false] outside the matrix. *)
Definition last_pressed (ks : list (list bool)) (r c : nat) : bool :=
  default false (ks !! r ≫= (.!! c)).

(** The key of a cell; the empty string outside the layout. *)
Definition key_of (r c : nat) : string :=
  default ""%string (KEYPAD_LAYOUT !! r ≫= (.!! c)).

(** The cell shows a press that the previous pass did not see. *)
Definition rising_edge (ks : list (list bool)) (inp : scan_input)
    (rc : nat * nat) : bool :=
  pressed_now inp rc.1 rc.2 && negb (last_pressed ks rc.1 rc.2).

(** [handle_keypress] for the key of a cell, with the inputs of a pass. *)
Definition dispatch (inp : scan_input) (rc : nat * nat) (w : World) : World :=
  handle_keypress (key_of rc.1 rc.2) (sc_distance inp rc.1 rc.2)
    (sc_dht inp rc.1 rc.2) w.

(** The matrix of the presses seen in a pass. *)
Definition pressed_matrix (inp : scan_input) : list (list bool) :=
  (fun r => (fun c => pressed_now inp r c) <$> KEYPAD_COL_IDX)
    <$> KEYPAD_ROW_IDX.

(** The matrix has four rows of three cells. *)
Definition matrix_shape (ks : list (list bool)) : Prop :=
  length ks = 4%nat /\ Forall (fun row => length row = 3%nat) ks.

(** The scanner's walk over a list of cells, one [scan_cell] after the
    other. *)
Fixpoint scan_list (inp : scan_input) (active : bool)
    (cells : list (nat * nat)) (st : list (list bool) * World)
    : option (list (list bool) * World) :=
  match cells with
  | [] => Some st
  | rc :: rest => st' ← scan_cell inp active rc.1 rc.2 st;
                  scan_list inp active rest st'
  end.

(** [ks[r][c] = v], where the cell exists. *)
Definition set_cell (ks : list (list bool)) (rc : nat * nat) (v : bool)
    : list (list bool) :=
  match ks !! rc.1 with
  | Some row => <[rc.1 := <[rc.2 := v]> row]> ks
  | None => ks
  end.

(** The matrix after the presses of a pass were written to the given
    cells. *)
Definition mark_cells (inp : scan_input) (cells : list (nat * nat))
    (ks : list (list bool)) : list (list bool) :=
  foldl (fun m rc => set_cell m rc (pressed_now inp rc.1 rc.2)) ks cells.

(** The cell lies inside the matrix and inside the layout. *)
Definition cell_in_range (ks : list (list bool)) (rc : nat * nat) : Prop :=
  is_Some (ks !! rc.1 ≫= (.!! rc.2)) /\
  is_Some (KEYPAD_LAYOUT !! rc.1 ≫= (.!! rc.2)).

(** What the scanner does to the shared state at one cell, given the
    matrix [ks] the pass started with. *)
Definition scan_effect (ks : list (list bool)) (inp : scan_input)
    (active : bool) (w : World) (rc : nat * nat) : World :=
  if rising_edge ks inp rc then
    if active then dispatch inp rc w else w
  else w.

(** ** TelegramBotThread

    Of an update of [getUpdates] the loop uses three things: its
    ["update_id"], the chat id as the string
    [str(msg.get("chat", {}).get("id", ""))], and the text as
    [(msg.get("text") or "").strip().lower()].  An update is given by these
    three; an update without ["update_id"] is not modelled. *)
Record update := mkUpdate {
  update_id : Z;
  upd_chat_id : string;
  upd_text : string
}.

(** The three texts the bot sends; the status text is whatever
    [get_status_cb()] returns at that moment. *)
Inductive bot_reply :=
  | ReplyHelp                      (* "Hi! Try /status ..." *)
  | ReplyStatus (status : string)  (* get_status_cb() *)
  | ReplyMotorDisabled.            (* "... remote motor control is disabled ..." *)

(** The bot: [str(self.chat_id)], [self._offset], and the replies handed to
    [_send] so far, oldest first. *)
Record TelegramBotThread := mkBot {
  bot_chat_id : string;
  _offset : Z;
  bot_sent : list bot_reply
}.

Definition TelegramBotThread_new (chat_id : string) : TelegramBotThread :=
  {| bot_chat_id := chat_id; _offset := 0; bot_sent := [] |}.

Definition bot_send (r : bot_reply) (b : TelegramBotThread)
    : TelegramBotThread :=
  {| bot_chat_id := bot_chat_id b; _offset := _offset b;
     bot_sent := bot_sent b ++ [r] |}.

(** The body of [for upd in data.get("result", [])]; [status] is what
    [get_status_cb()] returns should the update ask for it. *)
Definition handle_update (b : TelegramBotThread) (us : update * string)
    : TelegramBotThread :=
  let (upd, status) := us in
  let b1 := {| bot_chat_id := bot_chat_id b;
               _offset := Z.max (_offset b) (update_id upd + 1);
               bot_sent := bot_sent b |} in
  if negb (String.eqb (upd_chat_id upd) (bot_chat_id b)) then b1
  else
    let text := upd_text upd in
    if String.eqb text "/start" || String.eqb text "/help" then
      bot_send ReplyHelp b1
    else if String.eqb text "/status" then bot_send (ReplyStatus status) b1
    else if String.eqb text "/motor_on" then bot_send ReplyMotorDisabled b1
    else if String.eqb text "/motor_off" then bot_send ReplyMotorDisabled b1
    else b1.

(** What one [getUpdates] request does: raise a [RequestException], answer
    with a status that is not ok, or answer with a list of updates, each
    paired with the status text current when it is handled. *)
Inductive poll_outcome :=
  | PollException
  | PollNotOk
  | PollOk (updates : list (update * string)).

(** One pass through the [while] loop of [run]. *)
Definition bot_poll (b : TelegramBotThread) (p : poll_outcome)
    : TelegramBotThread :=
  match p with
  | PollOk updates => foldl handle_update b updates
  | PollNotOk => b
  | PollException => b
  end.

(** The loop, for as many polls as there are outcomes. *)
Definition bot_run (b : TelegramBotThread) (ps : list poll_outcome)
    : TelegramBotThread :=
  foldl bot_poll b ps.

(** The updates of a poll; none when the poll failed. *)
Definition poll_updates (p : poll_outcome) : list (update * string) :=
  match p with PollOk updates => updates | _ => [] end.

(** ** motionDetection.py

    The state of the script's loop: its four variables, the levels last
    written to the buzzer and LED pins, and the number of times it started
    keypad_control.py.  Pin levels are booleans as above. *)
Record MotionState := mkMotionState {
  PIR_state : Z;
  keypad_launched : bool;
  motion_enabled : bool;
  last_button_state : bool;
  buzzer : bool;
  led : bool;
  popen_calls : nat
}.

(** The variables at start-up, with both outputs low and nothing started. *)
Definition MotionState_init : MotionState :=
  {| PIR_state := 0; keypad_launched := false; motion_enabled := true;
     last_button_state := false; buzzer := false; led := false;
     popen_calls := 0 |}.

(** What the world supplies to one pass of the loop: the button level, the
    PIR level and the result of [read_state()] (the last two are only asked
    for while motion detection is enabled). *)
Record motion_input := mkMotionInput {
  mi_button : bool;
  mi_pir : bool;
  mi_system_state : string
}.

(** Lines 39-49: the button, a toggle on its rising edge. *)
Definition button_step (i : motion_input) (s : MotionState) : MotionState :=
  let s1 :=
    if mi_button i && negb (last_button_state s) then
      let enabled := negb (motion_enabled s) in
      if negb enabled then
        {| PIR_state := 0; keypad_launched := keypad_launched s;
           motion_enabled := enabled;
           last_button_state := last_button_state s;
           buzzer := false; led := false; popen_calls := popen_calls s |}
      else
        {| PIR_state := PIR_state s; keypad_launched := keypad_launched s;
           motion_enabled := enabled;
           last_button_state := last_button_state s;
           buzzer := buzzer s; led := led s; popen_calls := popen_calls s |}
    else s in
  {| PIR_state := PIR_state s1; keypad_launched := keypad_launched s1;
     motion_enabled := motion_enabled s1;
     last_button_state := mi_button i;
     buzzer := buzzer s1; led := led s1; popen_calls := popen_calls s1 |}.

(** Lines 52-75: the motion logic. *)
Definition motion_step (i : motion_input) (s : MotionState) : MotionState :=
  if motion_enabled s then
    if mi_pir i then
      if (PIR_state s =? 0)%Z then
        let on := String.eqb (mi_system_state i) "enabled" in
        {| PIR_state := 1; keypad_launched := true;
           motion_enabled := motion_enabled s;
           last_button_state := last_button_state s;
           buzzer := if on then true else buzzer s;
           led := if on then true else led s;
           popen_calls := if keypad_launched s then popen_calls s
                          else S (popen_calls s) |}
      else s
    else
      if (PIR_state s =? 1)%Z then
        {| PIR_state := 0; keypad_launched := keypad_launched s;
           motion_enabled := motion_enabled s;
           last_button_state := last_button_state s;
           buzzer := false; led := false; popen_calls := popen_calls s |}
      else s
  else s.

(** One pass through the [while True] loop. *)
Definition motion_loop_step (s : MotionState) (i : motion_input)
    : MotionState :=
  motion_step i (button_step i s).

Definition motion_loop (s : MotionState) (inputs : list motion_input)
    : MotionState :=
  foldl motion_loop_step s inputs.

(** Buzzer and LED go together; they are on only during a motion episode
    ([PIR_state = 1]) with detection enabled; keypad_control.py has been
    started exactly when [keypad_launched] says so. *)
Definition motion_invariant (s : MotionState) : Prop :=
  buzzer s = led s /\
  (buzzer s = true -> PIR_state s = 1%Z /\ motion_enabled s = true) /\
  (PIR_state s = 0%Z \/ PIR_state s = 1%Z) /\
  popen_calls s = (if keypad_launched s then 1 else 0)%nat.

(** ** keypad.py

    The keys of [MATRIX] are integers and one-character strings; the state
    file is [None] while it does not exist, else the text last written. *)
Inductive matrix_key :=
  | KeyInt (n : Z)
  | KeyStr (s : string).

Definition MATRIX : list (list matrix_key) :=
  [ [KeyInt 1; KeyInt 2; KeyInt 3];
    [KeyInt 4; KeyInt 5; KeyInt 6];
    [KeyInt 7; KeyInt 8; KeyInt 9];
    [KeyStr "*"; KeyInt 0; KeyStr "#"] ].

(** [key == s] for a string [s]: an integer equals no string. *)
Definition key_is (key : matrix_key) (s : string) : bool :=
  match key with
  | KeyStr t => String.eqb t s
  | KeyInt _ => false
  end.

Definition write_state (state : string) (file : option string)
    : option string :=
  Some state.

(** The body of the inner loop for row [j] of column [i]; [level] is the
    level of the row pin.  [None] stands for an [IndexError].  The wait for
    the release of the key changes no state and is taken to have ended. *)
Definition keypad_py_cell (level : nat -> nat -> bool) (j i : nat)
    (file : option string) : option (option string) :=
  if eqb (level j i) false then
    row ← MATRIX !! j;
    key ← row !! i;
    Some (if key_is key "#" then write_state "enabled" file
          else if key_is key "*" then write_state "disabled" file
          else file)
  else Some file.

Fixpoint keypad_py_rows (level : nat -> nat -> bool) (i : nat)
    (rows : list nat) (file : option string) : option (option string) :=
  match rows with
  | [] => Some file
  | j :: rest => file' ← keypad_py_cell level j i file;
                 keypad_py_rows level i rest file'
  end.

Fixpoint keypad_py_cols (level : nat -> nat -> bool) (cols : list nat)
    (file : option string) : option (option string) :=
  match cols with
  | [] => Some file
  | i :: rest => file' ← keypad_py_rows level i (seq 0 4) file;
                 keypad_py_cols level rest file'
  end.

(** One pass through the [while True] loop of keypad.py. *)
Definition keypad_py_pass (level : nat -> nat -> bool)
    (file : option string) : option (option string) :=
  keypad_py_cols level (seq 0 3) file.

(** ** AlertGate: what a run does, key by key *)

Section AlertGateRuns.
Context {St : Type} `{EqDecision St} {Msg : Type}.

(** All the gate holds about one key: the cooldown and the two entries. *)
Definition gate_view (key : string) (g : AlertGate St)
    : Z * option St * option Q :=
  (cooldown_sec g, last_state g !! key, last_sent g !! key).

(** The messages a run hands to Telegram, each with the key of its call. *)
Fixpoint run_sent (g : AlertGate St) (cs : list (gate_call St Msg))
    : list (string * Msg) :=
  match cs with
  | [] => []
  | c :: cs' =>
      ((fun m => (call_key c, m)) <$> snd (do_call g c))
      ++ run_sent (fst (do_call g c)) cs'
  end.

(** The calls of a run that are made for [key]. *)
Definition calls_for (key : string) (cs : list (gate_call St Msg))
    : list (gate_call St Msg) :=
  filter (fun c => call_key c = key) cs.

End AlertGateRuns.

(** ** Scenarios

    Concrete gates, calls and loop inputs on which the facts below are
    exercised. *)

Definition gate0 : AlertGate bool := AlertGate_new.

(** A first, successful "soil is dry" alert at clock reading 100. *)
Definition dry_at_100 : gate_call bool alert_msg :=
  mkCall 100 "soil_dry" true SoilDryMsg (Response 200 true).

Definition moist_at (t : Q) (outcome : http_outcome)
    : gate_call bool alert_msg :=
  mkCall t "soil_dry" false SoilMoistMsg outcome.

Definition dry_at (t : Q) (outcome : http_outcome)
    : gate_call bool alert_msg :=
  mkCall t "soil_dry" true SoilDryMsg outcome.

(** An iteration at clock reading [t]: switch on, somebody present, the
    given distance read, moisture level and DHT result, Telegram answering
    with success. *)
Definition iteration_at (t : Q) (distance : option Q) (moisture : bool)
    (dht : option (option Q * option Q)) : iter_input :=
  {| in_switch := true; in_pir := false; in_distance := distance;
     in_water_now := t; in_water_outcome := Response 200 true;
     in_moisture1 := moisture; in_moisture2 := moisture;
     in_soil_now := t; in_soil_outcome := Response 200 true;
     in_now := t; in_dht := dht |}.

(** The world after a first iteration at clock reading 1000 that measured
    4 cm, dry soil, 25 degrees and 40 percent. *)
Definition world_dry_4cm : World :=
  sensors_iteration (iteration_at 1000 (Some 4) true (Some (Some 40, Some 25)))
    (World_init (Some gate0)).

(** The world after a "moist" iteration at clock reading 1000, whose alert
    went out, and a "dry" iteration at 1010: the dry reading falls inside
    the cooldown, so the gate still remembers "moist". *)
Definition world_unrecorded_dry : World :=
  sensors_iteration (iteration_at 1010 (Some 4) true None)
    (sensors_iteration (iteration_at 1000 (Some 4) false None)
       (World_init (Some gate0))).

(** The gate of a world; the fresh gate when there is none. *)
Definition gate_of (w : World) : AlertGate bool :=
  default gate0 (alerts w).

(** The same loop input with Telegram unreachable and its clock readings
    shifted by an hour. *)
Definition telegram_down (i : iter_input) : iter_input :=
  {| in_switch := in_switch i; in_pir := in_pir i;
     in_distance := in_distance i;
     in_water_now := in_water_now i + 3600;
     in_water_outcome := RequestException;
     in_moisture1 := in_moisture1 i; in_moisture2 := in_moisture2 i;
     in_soil_now := in_soil_now i + 3600;
     in_soil_outcome := RequestException;
     in_now := in_now i; in_dht := in_dht i |}.

(** An iteration at clock reading [t] with the master switch off. *)
Definition switch_off_at (t : Q) : iter_input :=
  {| in_switch := false; in_pir := false; in_distance := Some 4;
     in_water_now := t; in_water_outcome := Response 200 true;
     in_moisture1 := true; in_moisture2 := true;
     in_soil_now := t; in_soil_outcome := Response 200 true;
     in_now := t; in_dht := Some (Some 40, Some 25) |}.

(** An iteration at clock reading [t] whose two moisture reads disagree:
    dry first, moist inside the motor helper. *)
Definition flicker_at (t : Q) : iter_input :=
  {| in_switch := true; in_pir := false; in_distance := Some 4;
     in_water_now := t; in_water_outcome := Response 200 true;
     in_moisture1 := true; in_moisture2 := false;
     in_soil_now := t; in_soil_outcome := Response 200 true;
     in_now := t; in_dht := None |}.

(** A pass of the scanner with the given PIR level in which exactly the key
    in row [r0], column [c0] is down; the ultrasonic sensor would give
    4 cm. *)
Definition scan_pressing (pir : bool) (r0 c0 : nat) : scan_input :=
  {| sc_pir := pir;
     sc_row_level := fun r c => negb (Nat.eqb r r0 && Nat.eqb c c0);
     sc_distance := fun _ _ => Some 4;
     sc_dht := fun _ _ => None |}.

(** Two updates with the command "/status": one from the chat "42", one
    from a stranger. *)
Definition status_from_42 : update * string :=
  (mkUpdate 7 "42" "/status", "Motor: OFF"%string).
Definition status_from_stranger : update * string :=
  (mkUpdate 8 "666" "/status", "Motor: OFF"%string).

(** A motion onset while the state file says "disabled". *)
Definition motion_while_disabled : motion_input :=
  mkMotionInput false true "disabled".
Definition motion_while_enabled : motion_input :=
  mkMotionInput false true "enabled".

Ltac q_arith := simpl; unfold inject_Z; lra.

(** * Facts *)

(** ** Comparisons *)

Lemma qlt_true a b : qlt a b = true <-> a < b.
Proof.
  unfold qlt. rewrite Qlt_alt. destruct (a ?= b); split; congruence.
Qed.

Lemma qlt_false a b : qlt a b = false <-> b <= a.
Proof.
  unfold qlt. rewrite (Qle_alt b a), <- (Qcompare_antisym a b).
  destruct (a ?= b); simpl; split; congruence.
Qed.

Lemma qle_true a b : qle a b = true <-> a <= b.
Proof.
  unfold qle. rewrite Qle_alt. destruct (a ?= b); split; congruence.
Qed.

Lemma qle_false a b : qle a b = false <-> b < a.
Proof.
  unfold qle. rewrite (Qgt_alt a b).
  destruct (a ?= b); split; congruence.
Qed.

(** ** calc_water_height *)

Lemma calc_water_height_inside d :
  0 <= d -> d <= BEAKER_HEIGHT_CM ->
  calc_water_height d == BEAKER_HEIGHT_CM - d.
Proof.
  unfold calc_water_height, py_max, py_min, BEAKER_HEIGHT_CM. intros H0 H1.
  destruct (qlt (10 - d) 10) eqn:E1.
  - destruct (qlt 0 (10 - d)) eqn:E2; [reflexivity|].
    apply qlt_false in E2. lra.
  - apply qlt_false in E1.
    destruct (qlt 0 10) eqn:E2; [lra|]. apply qlt_false in E2. lra.
Qed.

Lemma calc_water_height_above d :
  BEAKER_HEIGHT_CM < d -> calc_water_height d = 0.
Proof.
  unfold calc_water_height, py_max, py_min, BEAKER_HEIGHT_CM. intros H.
  assert (E1 : qlt (10 - d) 10 = true) by (apply qlt_true; lra).
  rewrite E1.
  assert (E2 : qlt 0 (10 - d) = false) by (apply qlt_false; lra).
  now rewrite E2.
Qed.

Lemma calc_water_height_range d :
  0 <= calc_water_height d /\ calc_water_height d <= BEAKER_HEIGHT_CM.
Proof.
  unfold calc_water_height, py_max, py_min, BEAKER_HEIGHT_CM.
  destruct (qlt (10 - d) 10) eqn:E1.
  - apply qlt_true in E1.
    destruct (qlt 0 (10 - d)) eqn:E2.
    + apply qlt_true in E2. lra.
    + lra.
  - destruct (qlt 0 10) eqn:E2; lra.
Qed.

(** ** AlertGate: one call *)

Section AlertGateFacts.
Context {St : Type} `{EqDecision St} {Msg : Type}.
Implicit Types (g : AlertGate St) (c : gate_call St Msg) (msg : Msg)
  (state : St) (cs mid : list (gate_call St Msg)).

Lemma maybe_send_attempt g now key state msg outcome :
  changed g key state = true -> recently g now key = false ->
  snd (maybe_send g now key state msg outcome) = [msg] /\
  last_state (fst (maybe_send g now key state msg outcome)) !! key
    = Some state /\
  last_sent (fst (maybe_send g now key state msg outcome)) !! key
    = (if Telegram_send outcome then Some now else last_sent g !! key).
Proof.
  intros Hc Hr. unfold maybe_send. rewrite Hc, Hr. simpl.
  destruct (Telegram_send outcome); simpl;
    rewrite ?lookup_insert_eq; auto.
Qed.

Lemma maybe_send_skip g now key state msg outcome :
  changed g key state && negb (recently g now key) = false ->
  maybe_send g now key state msg outcome = (g, []).
Proof. intros H. unfold maybe_send. now rewrite H. Qed.

Lemma maybe_send_cooldown_sec g now key state msg outcome :
  cooldown_sec (fst (maybe_send g now key state msg outcome))
    = cooldown_sec g.
Proof.
  unfold maybe_send.
  destruct (changed g key state && negb (recently g now key)); [|done].
  now destruct (Telegram_send outcome).
Qed.

Lemma maybe_send_other_key g now key state msg outcome k :
  k ≠ key ->
  last_sent (fst (maybe_send g now key state msg outcome)) !! k
    = last_sent g !! k /\
  last_state (fst (maybe_send g now key state msg outcome)) !! k
    = last_state g !! k.
Proof.
  intros Hk. unfold maybe_send.
  destruct (changed g key state && negb (recently g now key)); [|done].
  destruct (Telegram_send outcome); simpl;
    rewrite ?lookup_insert_ne by congruence; auto.
Qed.

Lemma changed_false g key state :
  changed g key state = false <-> last_state g !! key = Some state.
Proof.
  unfold changed. rewrite bool_decide_eq_false.
  split; [|tauto]. intros H.
  destruct (decide (last_state g !! key = Some state)); tauto.
Qed.

Lemma changed_true g key state :
  changed g key state = true <-> last_state g !! key ≠ Some state.
Proof. unfold changed. apply bool_decide_eq_true. Qed.

Lemma recently_true g now key :
  recently g now key = true <->
  now - default 0 (last_sent g !! key) < inject_Z (cooldown_sec g).
Proof. unfold recently. apply qlt_true. Qed.

Lemma recently_false g now key :
  recently g now key = false <->
  inject_Z (cooldown_sec g) <= now - default 0 (last_sent g !! key).
Proof. unfold recently. apply qlt_false. Qed.


Lemma do_call_cooldown_sec g c :
  cooldown_sec (fst (do_call g c)) = cooldown_sec g.
Proof. apply maybe_send_cooldown_sec. Qed.

Lemma run_cooldown_sec cs : forall g, cooldown_sec (run g cs) = cooldown_sec g.
Proof.
  induction cs as [|c cs IH]; intros g; simpl; [done|].
  now rewrite IH, do_call_cooldown_sec.
Qed.

Lemma sends_true g c :
  sends g c = true <->
  changed g (call_key c) (call_state c) = true /\
  recently g (call_now c) (call_key c) = false.
Proof.
  unfold sends, do_call, maybe_send.
  destruct (changed g _ _), (recently g _ _); simpl; intuition congruence.
Qed.

Lemma sends_false g c :
  sends g c = false <-> snd (do_call g c) = [].
Proof.
  unfold sends. destruct (snd (do_call g c)); intuition congruence.
Qed.

(** [last_sent[key]] changes exactly on a successful send for [key], and
    then holds the clock reading of that call. *)
Lemma do_call_last_sent g c key :
  last_sent (fst (do_call g c)) !! key =
    if sends_ok g c && bool_decide (call_key c = key)
    then Some (call_now c) else last_sent g !! key.
Proof.
  unfold sends_ok, sends, do_call, maybe_send.
  destruct (changed g _ _ && negb (recently g _ _)); simpl; [|done].
  destruct (Telegram_send (call_outcome c)); simpl; [|done].
  case_bool_decide as Hk.
  - subst key. apply lookup_insert_eq.
  - now apply lookup_insert_ne.
Qed.

Lemma run_last_sent key cs : forall g,
  no_ok_send_for key g cs = true ->
  last_sent (run g cs) !! key = last_sent g !! key.
Proof.
  induction cs as [|c cs IH]; intros g H; simpl in *; [done|].
  apply andb_true_iff in H as [H1 H2].
  rewrite IH by done. rewrite do_call_last_sent.
  apply negb_true_iff in H1. now rewrite H1.
Qed.

(** Unless the state changed inside the cooldown, the gate remembers
    [state] for [key] after the call. *)
Lemma maybe_send_last_state_settled g now key state msg outcome :
  changed g key state && recently g now key = false ->
  last_state (fst (maybe_send g now key state msg outcome)) !! key
    = Some state.
Proof.
  intros H. destruct (changed g key state) eqn:Hc.
  - simpl in H. now apply maybe_send_attempt.
  - rewrite maybe_send_skip by (now rewrite Hc).
    now apply changed_false.
Qed.

(** ** AlertGate: the claims *)

(** C2.  Let call [c1] be a successful send for a key, let the calls [mid]
    that follow contain no successful send for that key (whatever their
    keys and states: the state may toggle any number of times), and let
    [c2] be a further call for the same key.  If [c2] comes less than
    [cooldown_sec] after [c1], it sends nothing; if it comes
    [cooldown_sec] or more after [c1] with a state that differs from
    [last_state[key]], it sends its message. *)
Theorem C2_cooldown_after_successful_send g c1 mid c2 :
  sends_ok g c1 = true ->
  no_ok_send_for (call_key c1) (fst (do_call g c1)) mid = true ->
  call_key c2 = call_key c1 ->
  let g2 := run (fst (do_call g c1)) mid in
  (call_now c2 - call_now c1 < inject_Z (cooldown_sec g) ->
     snd (do_call g2 c2) = []) /\
  (inject_Z (cooldown_sec g) <= call_now c2 - call_now c1 ->
   last_state g2 !! call_key c2 ≠ Some (call_state c2) ->
     snd (do_call g2 c2) = [call_msg c2]).
Proof.
  intros Hok Hmid Hkey g2.
  assert (Hsent : last_sent g2 !! call_key c2 = Some (call_now c1)).
  { subst g2. rewrite Hkey, run_last_sent by done.
    rewrite do_call_last_sent, Hok. now rewrite bool_decide_eq_true_2. }
  assert (Hcd : cooldown_sec g2 = cooldown_sec g).
  { subst g2. now rewrite run_cooldown_sec, do_call_cooldown_sec. }
  split.
  - intros Hlt. apply sends_false.
    destruct (sends g2 c2) eqn:E; [|done].
    apply sends_true in E as [_ E]. apply recently_false in E.
    rewrite Hsent, Hcd in E. simpl in E. lra.
  - intros Hle Hne. unfold do_call.
    apply maybe_send_attempt.
    + now apply changed_true.
    + apply recently_false. rewrite Hsent, Hcd. simpl. lra.
Qed.

(** C3, as the code has it.  After a call [maybe_send(key, state, msg)]
    made outside the cooldown of [key], [last_state.get(key)] is [state],
    whether a send was attempted or not and whether it succeeded or not;
    the same holds after a call with an unchanged state.  After a call
    with a changed state inside the cooldown, [last_state.get(key)] is
    what it was before, hence not [state]. *)
Theorem C3_last_state_after_call g now key state msg outcome :
  let g' := fst (maybe_send g now key state msg outcome) in
  (recently g now key = false -> last_state g' !! key = Some state) /\
  (changed g key state = false -> last_state g' !! key = Some state) /\
  (changed g key state = true -> recently g now key = true ->
     last_state g' !! key = last_state g !! key /\
     last_state g' !! key ≠ Some state).
Proof.
  intros g'. subst g'. split; [|split].
  - intros Hr. apply maybe_send_last_state_settled.
    rewrite Hr. apply andb_false_r.
  - intros Hc. apply maybe_send_last_state_settled. now rewrite Hc.
  - intros Hc Hr. rewrite maybe_send_skip by (now rewrite Hc, Hr).
    split; [done|]. now apply changed_true.
Qed.

(** C5, as the code has it.  Two successive calls for one key with the
    same state hand at most one message to Telegram in total, whatever
    the outcome of the first send.  If the first call sent (successfully
    or not), the second sends nothing; the second also sends nothing
    unless the first call found the state changed inside the cooldown. *)
Theorem C5_same_state_twice g now1 now2 key state msg1 msg2 out1 out2 :
  let r1 := maybe_send g now1 key state msg1 out1 in
  let r2 := maybe_send (fst r1) now2 key state msg2 out2 in
  (length (snd r1 ++ snd r2) <= 1)%nat /\
  (snd r1 ≠ [] -> snd r2 = []) /\
  (changed g key state && recently g now1 key = false -> snd r2 = []).
Proof.
  intros r1 r2.
  assert (Hsilent :
    changed g key state && recently g now1 key = false -> snd r2 = []).
  { intros H. subst r2.
    rewrite maybe_send_skip; [done|].
    apply andb_false_iff. left. apply changed_false. subst r1.
    now apply maybe_send_last_state_settled. }
  assert (Hlen1 : (length (snd r1) <= 1)%nat).
  { subst r1. unfold maybe_send.
    destruct (changed g key state && negb (recently g now1 key));
      simpl; lia. }
  assert (Hlen2 : (length (snd r2) <= 1)%nat).
  { subst r2. unfold maybe_send.
    destruct (changed (fst r1) key state && negb (recently (fst r1) now2 key));
      simpl; lia. }
  assert (Hsent : snd r1 ≠ [] -> snd r2 = []).
  { intros Hne. apply Hsilent. subst r1. unfold maybe_send in Hne.
    destruct (changed g key state), (recently g now1 key);
      simpl in *; congruence. }
  split; [|split; assumption].
  rewrite length_app.
  destruct (snd r1) as [|m l] eqn:E1.
  - simpl. lia.
  - rewrite Hsent by done. simpl in *. lia.
Qed.

End AlertGateFacts.

(** ** AlertGate: concrete runs *)

Lemma C2_cooldown_witness :
  snd (do_call
         (run (fst (do_call gate0 dry_at_100))
              [moist_at 110 RequestException; dry_at 120 RequestException])
         (moist_at 130 (Response 200 true))) = [] /\
  snd (do_call
         (run (fst (do_call gate0 dry_at_100))
              [moist_at 110 RequestException; dry_at 120 RequestException])
         (moist_at 170 (Response 200 true))) = [SoilMoistMsg].
Proof.
  split.
  - apply (C2_cooldown_after_successful_send gate0 dry_at_100
             [moist_at 110 RequestException; dry_at 120 RequestException]
             (moist_at 130 (Response 200 true)));
      reflexivity.
  - apply (C2_cooldown_after_successful_send gate0 dry_at_100
             [moist_at 110 RequestException; dry_at 120 RequestException]
             (moist_at 170 (Response 200 true)));
      try reflexivity.
    + vm_compute. discriminate.
    + vm_compute. discriminate.
Defined.

(** C3 as stated fails: the state flips to "moist" ten seconds after a
    successful "dry" alert; the call leaves [last_state["soil_dry"]] at
    [True], not at the [False] just passed in. *)
Lemma C3_counterexample :
  let g := fst (do_call gate0 dry_at_100) in
  let g' := fst (maybe_send g 110 "soil_dry" false SoilMoistMsg
                   (Response 200 true)) in
  last_state g' !! "soil_dry"%string = Some true /\
  last_state g' !! "soil_dry"%string ≠ Some false.
Proof. vm_compute. split; [reflexivity | discriminate]. Qed.

Lemma C3_last_state_witness :
  last_state (fst (maybe_send gate0 100 "soil_dry" true SoilDryMsg
                     RequestException)) !! "soil_dry"%string = Some true /\
  last_state (fst (maybe_send (fst (do_call gate0 dry_at_100)) 110
                     "soil_dry" false SoilMoistMsg (Response 200 true)))
    !! "soil_dry"%string ≠ Some false.
Proof.
  split.
  - destruct (C3_last_state_after_call gate0 100 "soil_dry" true SoilDryMsg
                RequestException) as (H & _ & _).
    apply H. reflexivity.
  - destruct (C3_last_state_after_call (fst (do_call gate0 dry_at_100)) 110
                "soil_dry" false SoilMoistMsg (Response 200 true))
      as (_ & _ & H).
    apply H; reflexivity.
Defined.

(** C5 as stated fails: two successive calls with "moist", 50 and 70
    seconds after a successful "dry" alert.  The first is inside the
    cooldown and sends nothing; the second is outside and sends. *)
Lemma C5_counterexample :
  let g := fst (do_call gate0 dry_at_100) in
  let r1 := do_call g (moist_at 150 (Response 200 true)) in
  let r2 := do_call (fst r1) (moist_at 170 (Response 200 true)) in
  snd r1 = [] /\ snd r2 = [SoilMoistMsg] /\ snd r2 ≠ [].
Proof. vm_compute. repeat split; discriminate. Qed.

Lemma C5_same_state_twice_witness :
  snd (maybe_send
         (fst (maybe_send gate0 100 "soil_dry" true SoilDryMsg
                 RequestException))
         101 "soil_dry" true SoilDryMsg (Response 200 true)) = [].
Proof.
  destruct (C5_same_state_twice gate0 100 101 "soil_dry" true SoilDryMsg
              SoilDryMsg RequestException (Response 200 true))
    as (_ & H & _).
  apply H. vm_compute. discriminate.
Defined.

(** ** ThingSpeakClient.push *)

Lemma push_rate_limited c now fields outcome :
  now - _last_push c < inject_Z (min_interval_sec c) ->
  push c now fields outcome
    = {| pr_client := c; pr_ret := false; pr_requests := [] |}.
Proof.
  intros H. unfold push. apply qlt_true in H. now rewrite H.
Qed.

Lemma push_response c now fields status_code text_isdigit :
  inject_Z (min_interval_sec c) <= now - _last_push c ->
  push c now fields (Response status_code text_isdigit)
    = {| pr_client := {| write_key := write_key c;
                         min_interval_sec := min_interval_sec c;
                         _last_push := now |};
         pr_ret := (status_code =? 200)%Z && text_isdigit;
         pr_requests := [build_payload c fields] |}.
Proof.
  intros H. unfold push. apply qlt_false in H. now rewrite H.
Qed.

Lemma push_exception c now fields :
  inject_Z (min_interval_sec c) <= now - _last_push c ->
  push c now fields RequestException
    = {| pr_client := c; pr_ret := false;
         pr_requests := [build_payload c fields] |}.
Proof.
  intros H. unfold push. apply qlt_false in H. now rewrite H.
Qed.

Lemma push_min_interval_sec c now fields outcome :
  min_interval_sec (pr_client (push c now fields outcome))
    = min_interval_sec c.
Proof.
  unfold push. destruct (qlt _ _); [done|]. now destruct outcome.
Qed.

(** A call that returns [True] was made at least [min_interval_sec] after
    [_last_push], and leaves its own clock reading there. *)
Lemma push_accepted c now fields outcome :
  pr_ret (push c now fields outcome) = true ->
  inject_Z (min_interval_sec c) <= now - _last_push c /\
  _last_push (pr_client (push c now fields outcome)) = now.
Proof.
  unfold push. destruct (qlt _ _) eqn:E; simpl; [discriminate|].
  apply qlt_false in E. destruct outcome; simpl; [discriminate|]. auto.
Qed.

(** No call moves [_last_push] backwards, and a call that moves it moves it
    by at least [min_interval_sec]. *)
Lemma push_last_push_mono c now fields outcome :
  (0 <= min_interval_sec c)%Z ->
  _last_push c <= _last_push (pr_client (push c now fields outcome)).
Proof.
  intros Hmin. unfold push. destruct (qlt _ _) eqn:E; simpl; [lra|].
  apply qlt_false in E.
  assert (0 <= inject_Z (min_interval_sec c)).
  { change 0 with (inject_Z 0). now rewrite <- Zle_Qle. }
  destruct outcome; simpl; lra.
Qed.

(** Every accepted call of a run comes at least [min_interval_sec] after
    the [_last_push] the run started with. *)
Lemma accepted_times_after ps : forall c,
  (0 <= min_interval_sec c)%Z ->
  Forall (fun u => inject_Z (min_interval_sec c) <= u - _last_push c)
         (accepted_times c ps).
Proof.
  induction ps as [|p ps IH]; intros c Hmin; simpl; [constructor|].
  pose proof (push_last_push_mono c (pc_now p) (pc_fields p) (pc_outcome p)
                Hmin) as Hmono.
  pose proof (push_min_interval_sec c (pc_now p) (pc_fields p)
                (pc_outcome p)) as Hsame.
  assert (Hrest :
    Forall (fun u => inject_Z (min_interval_sec c) <= u - _last_push c)
           (accepted_times (pr_client (do_push c p)) ps)).
  { unfold do_push. specialize (IH (pr_client (do_push c p))).
    unfold do_push in IH. rewrite Hsame in IH.
    eapply Forall_impl; [apply IH, Hmin|].
    simpl. intros u Hu. lra. }
  destruct (pr_ret (do_push c p)) eqn:E; [|exact Hrest].
  constructor; [|exact Hrest].
  now apply push_accepted in E as [E _].
Qed.

Lemma accepted_times_spaced ps : forall c,
  (0 <= min_interval_sec c)%Z ->
  spaced (inject_Z (min_interval_sec c)) (accepted_times c ps).
Proof.
  induction ps as [|p ps IH]; intros c Hmin; simpl; [exact I|].
  pose proof (push_min_interval_sec c (pc_now p) (pc_fields p)
                (pc_outcome p)) as Hsame.
  specialize (IH (pr_client (do_push c p))).
  unfold do_push in *. rewrite Hsame in IH.
  destruct (pr_ret (push c _ _ _)) eqn:E; [|now apply IH].
  simpl. split; [|now apply IH].
  apply push_accepted in E as [_ E].
  pose proof (accepted_times_after ps
                (pr_client (push c (pc_now p) (pc_fields p) (pc_outcome p))))
    as Hafter.
  rewrite Hsame, E in Hafter. now apply Hafter.
Qed.

Lemma spaced_lookup gap ts : forall i j ti tj,
  spaced gap ts -> (i < j)%nat ->
  ts !! i = Some ti -> ts !! j = Some tj -> gap <= tj - ti.
Proof.
  induction ts as [|t ts IH]; intros i j ti tj Hs Hij Hi Hj;
    [discriminate|].
  destruct Hs as [Hall Hs]. destruct j as [|j]; [lia|].
  destruct i as [|i]; simpl in *.
  - injection Hi as <-. rewrite Forall_lookup in Hall. eauto.
  - apply (IH i j); auto. lia.
Qed.

(** C6, as the code has it.  (1) In any run of pushes on a client with a
    non-negative [min_interval_sec], two accepted calls lie at least
    [min_interval_sec] apart.  (2) A call made less than [min_interval_sec]
    after [_last_push] returns [False], issues no request and changes
    nothing.  (3) On a fresh client (interval 15, [_last_push = 0]), calls
    at clock readings t0, t0+5, t0+10, t0+16 with t0 at least 15, each
    answered with success, return True, False, False, True. *)
Theorem C6_min_interval c ps i j ti tj now fields outcome k t0 :
  ((0 <= min_interval_sec c)%Z -> (i < j)%nat ->
   accepted_times c ps !! i = Some ti ->
   accepted_times c ps !! j = Some tj ->
   inject_Z (min_interval_sec c) <= tj - ti) /\
  (now - _last_push c < inject_Z (min_interval_sec c) ->
   push c now fields outcome
     = {| pr_client := c; pr_ret := false; pr_requests := [] |}) /\
  (15 <= t0 ->
   push_all (ThingSpeakClient_new k)
     [push_at t0; push_at (t0 + 5); push_at (t0 + 10); push_at (t0 + 16)]
     = [true; false; false; true]).
Proof.
  split; [|split].
  - intros Hmin Hij Hi Hj.
    eapply spaced_lookup; eauto using accepted_times_spaced.
  - apply push_rate_limited.
  - intros Ht0. unfold push_all, do_push, push_at. simpl pc_now.
    simpl pc_fields. simpl pc_outcome. unfold http_ok.
    rewrite (push_response (ThingSpeakClient_new k) t0) by q_arith.
    simpl pr_ret. simpl pr_client.
    rewrite (push_rate_limited _ (t0 + 5)) by q_arith.
    simpl pr_ret. simpl pr_client.
    rewrite (push_rate_limited _ (t0 + 10)) by q_arith.
    simpl pr_ret. simpl pr_client.
    rewrite (push_response _ (t0 + 16)) by q_arith. reflexivity.
Qed.

(** C10.  Let a call of [push] come at least [min_interval_sec] after
    [_last_push], so that the request is made.  If the request completes,
    [_last_push] becomes [now] whatever the response, the call returns
    whether the response was a success, and every call less than
    [min_interval_sec] after [now] is dropped without a request.  If the
    request raises [RequestException], the call returns [False], the client
    is unchanged, and a next call at any clock reading from [now] on makes
    its request. *)
Theorem C10_last_push_on_completion c now fields :
  inject_Z (min_interval_sec c) <= now - _last_push c ->
  (forall status_code text_isdigit,
     let r := push c now fields (Response status_code text_isdigit) in
     _last_push (pr_client r) = now /\
     pr_ret r = (status_code =? 200)%Z && text_isdigit /\
     forall now' fields' outcome',
       now' - now < inject_Z (min_interval_sec c) ->
       push (pr_client r) now' fields' outcome'
         = {| pr_client := pr_client r; pr_ret := false;
              pr_requests := [] |}) /\
  (let r := push c now fields RequestException in
   pr_ret r = false /\ pr_client r = c /\
   forall now' fields' outcome',
     now <= now' ->
     pr_requests (push (pr_client r) now' fields' outcome')
       = [build_payload c fields']).
Proof.
  intros Hdue. split.
  - intros status_code text_isdigit r. subst r.
    rewrite push_response by assumption. simpl.
    repeat split. intros now' fields' outcome' Hin.
    now apply push_rate_limited.
  - intros r. subst r. rewrite push_exception by assumption. simpl.
    repeat split. intros now' fields' outcome' Hlater.
    destruct outcome'.
    + rewrite push_exception by lra. reflexivity.
    + rewrite push_response by lra. reflexivity.
Qed.

(** ** ThingSpeakClient: concrete runs *)

(** C6 as stated fails at its own example: on a fresh client the call at
    clock reading 0 is inside the interval counted from the initial
    [_last_push = 0] and is dropped. *)
Lemma C6_counterexample :
  push_all (ThingSpeakClient_new "KEY")
    [push_at 0; push_at 5; push_at 10; push_at 16]
    = [false; false; false; true] /\
  push_all (ThingSpeakClient_new "KEY")
    [push_at 0; push_at 5; push_at 10; push_at 16]
    <> [true; false; false; true].
Proof. vm_compute. split; [reflexivity | discriminate]. Qed.

Lemma C6_min_interval_witness :
  push_all (ThingSpeakClient_new "KEY")
    [push_at 100; push_at (100 + 5); push_at (100 + 10); push_at (100 + 16)]
    = [true; false; false; true] /\
  push (ThingSpeakClient_new "KEY") 5 ∅ (Response 200 true)
    = {| pr_client := ThingSpeakClient_new "KEY"; pr_ret := false;
         pr_requests := [] |} /\
  inject_Z 15 <= 116 - 100.
Proof.
  destruct (C6_min_interval (ThingSpeakClient_new "KEY")
              [push_at 100; push_at 105; push_at 110; push_at 116]
              0%nat 1%nat 100 116 5 ∅ (Response 200 true) "KEY" 100)
    as (H1 & H2 & H3).
  split; [|split].
  - apply H3. vm_compute. discriminate.
  - apply H2. reflexivity.
  - apply H1; [vm_compute; discriminate | lia | reflexivity | reflexivity].
Defined.

Lemma C10_last_push_witness :
  _last_push (pr_client (push (ThingSpeakClient_new "KEY") 100 ∅
                           (Response 500 false))) = 100 /\
  pr_client (push (ThingSpeakClient_new "KEY") 100 ∅ RequestException)
    = ThingSpeakClient_new "KEY".
Proof.
  destruct (C10_last_push_on_completion (ThingSpeakClient_new "KEY") 100 ∅)
    as (H1 & H2).
  - vm_compute. discriminate.
  - split.
    + apply (H1 500%Z false).
    + apply H2.
Defined.

(** ** main.py: what each step of the loop body touches *)

Lemma reading_set_eq key v w : reading key (set_reading key v w) = Some v.
Proof. unfold reading, set_reading. simpl. apply lookup_insert_eq. Qed.

Lemma reading_set_ne k key v w :
  k ≠ key -> reading k (set_reading key v w) = reading k w.
Proof.
  intros H. unfold reading, set_reading. simpl.
  apply lookup_insert_ne. congruence.
Qed.

Lemma alerts_maybe_send_frame now key state msg outcome w :
  readings (alerts_maybe_send now key state msg outcome w) = readings w /\
  motor_pin (alerts_maybe_send now key state msg outcome w) = motor_pin w.
Proof. unfold alerts_maybe_send. now destruct (alerts w). Qed.

Lemma alerts_maybe_send_gate_entry now key state msg outcome w k :
  k ≠ key ->
  gate_entry k (alerts_maybe_send now key state msg outcome w)
    = gate_entry k w.
Proof.
  intros Hk. unfold gate_entry, alerts_maybe_send.
  destruct (alerts w) as [g|] eqn:E; simpl; [|now rewrite E].
  destruct (maybe_send_other_key g now key state msg outcome k Hk)
    as [-> ->]. done.
Qed.

(** The messages and signals of one [maybe_send] are appended. *)
Lemma alerts_maybe_send_logs now key state msg outcome w :
  exists sig out,
    signalled (alerts_maybe_send now key state msg outcome w)
      = signalled w ++ sig /\
    telegram_outbox (alerts_maybe_send now key state msg outcome w)
      = telegram_outbox w ++ out /\
    Forall (fun ks => ks.1 = key) sig /\
    Forall (fun m => m = msg) out.
Proof.
  unfold alerts_maybe_send. destruct (alerts w) as [g|]; simpl.
  - exists [(key, state)], (snd (maybe_send g now key state msg outcome)).
    repeat split; [repeat constructor|].
    unfold maybe_send. destruct (_ && _); simpl; repeat constructor.
  - exists [], []. rewrite !app_nil_r. repeat split; constructor.
Qed.

Lemma pir_active_frame level w :
  motor_pin (snd (pir_active level w)) = motor_pin w /\
  alerts (snd (pir_active level w)) = alerts w /\
  signalled (snd (pir_active level w)) = signalled w /\
  telegram_outbox (snd (pir_active level w)) = telegram_outbox w /\
  forall k, k ≠ "pir_active"%string ->
    reading k (snd (pir_active level w)) = reading k w.
Proof.
  unfold pir_active. simpl. repeat split.
  intros k Hk. now apply reading_set_ne.
Qed.

Lemma ultrasonic_step_frame i w :
  readings (snd (ultrasonic_step i w)) = readings w /\
  motor_pin (snd (ultrasonic_step i w)) = motor_pin w /\
  alerts (snd (ultrasonic_step i w)) = alerts w /\
  signalled (snd (ultrasonic_step i w)) = signalled w /\
  telegram_outbox (snd (ultrasonic_step i w)) = telegram_outbox w.
Proof. unfold ultrasonic_step. now destruct (in_distance i). Qed.

(** The distance the loop works with is positive only for a read that
    succeeded with a positive value. *)
Lemma ultrasonic_step_distance i w :
  fst (ultrasonic_step i w) = default (-1) (in_distance i).
Proof. unfold ultrasonic_step. now destruct (in_distance i). Qed.

Lemma water_step_readings i distance w :
  readings (water_step i distance w) = readings w /\
  motor_pin (water_step i distance w) = motor_pin w.
Proof.
  unfold water_step.
  destruct (qlt 0 distance); [|done].
  destruct (qlt WATER_LOW_DISTANCE_CM distance);
    apply alerts_maybe_send_frame.
Qed.

Lemma water_step_soil_entry i distance w :
  gate_entry "soil_dry" (water_step i distance w) = gate_entry "soil_dry" w.
Proof.
  unfold water_step.
  destruct (qlt 0 distance); [|done].
  destruct (qlt WATER_LOW_DISTANCE_CM distance);
    now apply alerts_maybe_send_gate_entry.
Qed.

Lemma water_step_logs i distance w :
  exists sig out,
    signalled (water_step i distance w) = signalled w ++ sig /\
    telegram_outbox (water_step i distance w) = telegram_outbox w ++ out /\
    Forall (fun ks => ks.1 = "water_low"%string) sig /\
    Forall (fun m => is_water_msg m = true) out.
Proof.
  unfold water_step.
  destruct (qlt 0 distance).
  - destruct (qlt WATER_LOW_DISTANCE_CM distance).
    + destruct (alerts_maybe_send_logs (in_water_now i) "water_low" true
                  (WaterLowMsg distance) (in_water_outcome i) w)
        as (sig & out & H1 & H2 & H3 & H4).
      exists sig, out. repeat split; try done.
      eapply Forall_impl; [exact H4|]. now intros m ->.
    + destruct (alerts_maybe_send_logs (in_water_now i) "water_low" false
                  WaterOkMsg (in_water_outcome i) w)
        as (sig & out & H1 & H2 & H3 & H4).
      exists sig, out. repeat split; try done.
      eapply Forall_impl; [exact H4|]. now intros m ->.
  - exists [], []. rewrite !app_nil_r. repeat split; constructor.
Qed.

Lemma dht_step_frame i w :
  motor_pin (dht_step i w) = motor_pin w /\
  alerts (dht_step i w) = alerts w /\
  signalled (dht_step i w) = signalled w /\
  telegram_outbox (dht_step i w) = telegram_outbox w /\
  forall k, k ≠ "temp_c"%string -> k ≠ "humidity"%string ->
    reading k (dht_step i w) = reading k w.
Proof.
  unfold dht_step.
  destruct (qle DHT_PERIOD _); [|done].
  destruct (in_dht i) as [[[h|] [t|]]|]; simpl; try done;
    destruct (qle TEMP_MIN_C t && qle t TEMP_MAX_C); simpl; try done;
    repeat split; intros k H1 H2; rewrite ?reading_set_ne by done; done.
Qed.

Lemma store_step_frame distance height w :
  motor_pin (store_step distance height w) = motor_pin w /\
  alerts (store_step distance height w) = alerts w /\
  signalled (store_step distance height w) = signalled w /\
  telegram_outbox (store_step distance height w) = telegram_outbox w /\
  forall k, k ≠ "distance_cm"%string -> k ≠ "water_height"%string ->
    reading k (store_step distance height w) = reading k w.
Proof.
  unfold store_step. simpl. repeat split.
  intros k H1 H2. now rewrite !reading_set_ne by done.
Qed.

Lemma water_step_gate i distance w g :
  alerts w = Some g ->
  exists g3,
    alerts (water_step i distance w) = Some g3 /\
    cooldown_sec g3 = cooldown_sec g /\
    last_state g3 !! "soil_dry"%string = last_state g !! "soil_dry"%string /\
    last_sent g3 !! "soil_dry"%string = last_sent g !! "soil_dry"%string.
Proof.
  intros Hg. unfold water_step.
  destruct (qlt 0 distance); [|by exists g].
  destruct (qlt WATER_LOW_DISTANCE_CM distance);
    unfold alerts_maybe_send; rewrite Hg; simpl;
    eexists; (split; [reflexivity|]);
    rewrite maybe_send_cooldown_sec;
    (split; [reflexivity|]);
    now apply and_comm, maybe_send_other_key.
Qed.

(** The moisture level read first decides the alert, the one read second
    (inside [check_and_drive_motor]) decides the motor. *)
Lemma soil_step_motor i w :
  motor_pin (soil_step i w) = eqb (in_moisture2 i) MOISTURE_IS_DRY_LEVEL /\
  reading "motor_on" (soil_step i w)
    = Some (py_bool_int (eqb (in_moisture2 i) MOISTURE_IS_DRY_LEVEL)).
Proof.
  unfold soil_step, check_and_drive_motor, moisture_is_dry. simpl.
  unfold reading.
  rewrite (proj1 (alerts_maybe_send_frame _ _ _ _ _ _)),
          (proj2 (alerts_maybe_send_frame _ _ _ _ _ _)).
  destruct (eqb (in_moisture2 i) MOISTURE_IS_DRY_LEVEL); simpl;
    (split; [reflexivity | apply lookup_insert_eq]).
Qed.

Lemma soil_step_readings i w k :
  k ≠ "soil_dry"%string -> k ≠ "motor_on"%string ->
  reading k (soil_step i w) = reading k w.
Proof.
  intros H1 H2.
  unfold soil_step, check_and_drive_motor, moisture_is_dry. simpl.
  unfold reading.
  rewrite (proj1 (alerts_maybe_send_frame _ _ _ _ _ _)).
  destruct (eqb (in_moisture2 i) MOISTURE_IS_DRY_LEVEL); simpl;
    rewrite !lookup_insert_ne by congruence; reflexivity.
Qed.

(** The gate and the outbox after the soil step, from those before it. *)
Lemma soil_step_gate i w :
  let was_dry := eqb (in_moisture1 i) MOISTURE_IS_DRY_LEVEL in
  let msg := if was_dry then SoilDryMsg else SoilMoistMsg in
  match alerts w with
  | Some g =>
      let r := maybe_send g (in_soil_now i) "soil_dry" was_dry msg
                 (in_soil_outcome i) in
      alerts (soil_step i w) = Some (fst r) /\
      signalled (soil_step i w) = signalled w ++ [("soil_dry"%string, was_dry)] /\
      telegram_outbox (soil_step i w) = telegram_outbox w ++ snd r
  | None =>
      alerts (soil_step i w) = None /\
      signalled (soil_step i w) = signalled w /\
      telegram_outbox (soil_step i w) = telegram_outbox w
  end.
Proof.
  intros was_dry msg. subst was_dry msg.
  unfold soil_step, check_and_drive_motor, moisture_is_dry. simpl.
  destruct (alerts w) as [g|] eqn:E;
    destruct (eqb (in_moisture2 i) MOISTURE_IS_DRY_LEVEL);
    unfold alerts_maybe_send; simpl; rewrite E; simpl; done.
Qed.

Lemma soil_step_logs i w :
  exists sig out,
    signalled (soil_step i w) = signalled w ++ sig /\
    telegram_outbox (soil_step i w) = telegram_outbox w ++ out /\
    Forall (fun ks => ks.1 = "soil_dry"%string) sig /\
    Forall (fun m => is_water_msg m = false) out.
Proof.
  pose proof (soil_step_gate i w) as H. simpl in H.
  destruct (alerts w) as [g|].
  - destruct H as (_ & H2 & H3). eexists _, _.
    split; [exact H2|]. split; [exact H3|].
    split; [repeat constructor|].
    unfold maybe_send. destruct (_ && _); simpl; [|constructor].
    repeat constructor. now destruct (eqb _ _).
  - destruct H as (_ & H2 & H3). exists [], [].
    rewrite !app_nil_r. repeat split; try done; constructor.
Qed.

Lemma soil_step_water_entry i w :
  gate_entry "water_low" (soil_step i w) = gate_entry "water_low" w.
Proof.
  pose proof (soil_step_gate i w) as H. simpl in H.
  unfold gate_entry. destruct (alerts w) as [g|].
  - destruct H as (-> & _).
    now destruct (maybe_send_other_key g (in_soil_now i) "soil_dry"
                    (eqb (in_moisture1 i) MOISTURE_IS_DRY_LEVEL)
                    (if eqb (in_moisture1 i) MOISTURE_IS_DRY_LEVEL
                     then SoilDryMsg else SoilMoistMsg)
                    (in_soil_outcome i) "water_low") as [-> ->].
  - now destruct H as (-> & _).
Qed.

(** The loop body with the master switch on, as a composition of its
    steps. *)
Lemma sensors_iteration_on i w :
  slide_switch_on (in_switch i) = true ->
  let d := default (-1) (in_distance i) in
  sensors_iteration i w
    = store_step d
        (calc_water_height (if qlt 0 d then d else BEAKER_HEIGHT_CM))
        (dht_step i
           (soil_step i
              (water_step i d
                 (snd (ultrasonic_step i (snd (pir_active (in_pir i) w))))))).
Proof.
  intros Hon. unfold sensors_iteration. rewrite Hon. simpl.
  unfold ultrasonic_step. now destruct (in_distance i).
Qed.

Lemma gate_entry_alerts k w w' :
  alerts w' = alerts w -> gate_entry k w' = gate_entry k w.
Proof. unfold gate_entry. now intros ->. Qed.

(** The world just before the soil step of an iteration. *)
Lemma before_soil_step i w :
  let d := default (-1) (in_distance i) in
  let w3 := water_step i d
              (snd (ultrasonic_step i (snd (pir_active (in_pir i) w)))) in
  motor_pin w3 = motor_pin w /\
  (forall k, k ≠ "pir_active"%string -> reading k w3 = reading k w) /\
  gate_entry "soil_dry" w3 = gate_entry "soil_dry" w /\
  (exists sig out,
     signalled w3 = signalled w ++ sig /\
     telegram_outbox w3 = telegram_outbox w ++ out /\
     Forall (fun ks => ks.1 = "water_low"%string) sig /\
     Forall (fun m => is_water_msg m = true) out) /\
  (qlt 0 d = false ->
   alerts w3 = alerts w /\ signalled w3 = signalled w /\
   telegram_outbox w3 = telegram_outbox w).
Proof.
  intros d w3. subst w3.
  set (w1 := snd (pir_active (in_pir i) w)).
  set (w2 := snd (ultrasonic_step i w1)).
  destruct (pir_active_frame (in_pir i) w) as (P1 & P2 & P3 & P4 & P5).
  destruct (ultrasonic_step_frame i w1) as (U0 & U1 & U2 & U3 & U4).
  fold w1 in P1, P2, P3, P4, P5. fold w2 in U0, U1, U2, U3, U4.
  destruct (water_step_readings i d w2) as [W0 W1].
  split; [congruence|]. split.
  { intros k Hk. unfold reading in *. rewrite W0, U0. now apply P5. }
  split.
  { rewrite water_step_soil_entry. unfold gate_entry. now rewrite U2, P2. }
  split.
  { destruct (water_step_logs i d w2) as (sig & out & H1 & H2 & H3 & H4).
    exists sig, out. rewrite H1, H2, U3, U4, P3, P4. done. }
  intros Hd. unfold water_step. rewrite Hd.
  rewrite U2, U3, U4. done.
Qed.

Lemma read_failed_not_positive i :
  read_failed i -> qlt 0 (default (-1) (in_distance i)) = false.
Proof.
  unfold read_failed. destruct (in_distance i) as [d|]; simpl.
  - intros H. now apply qlt_false.
  - reflexivity.
Qed.

Lemma dht_step_invalid i w k :
  temp_invalid (in_dht i) -> reading k (dht_step i w) = reading k w.
Proof.
  unfold temp_invalid, dht_step. intros H.
  destruct (qle DHT_PERIOD _); [|done].
  destruct (in_dht i) as [[h [t|]]|]; simpl; try done.
  assert (E : qle TEMP_MIN_C t && qle t TEMP_MAX_C = false).
  { unfold TEMP_MIN_C, TEMP_MAX_C. apply andb_false_iff.
    destruct H as [H|H]; [left|right]; now apply qle_false. }
  now rewrite E.
Qed.

(** ** main.py: the claims *)

(** C1, as the code has it.  In an iteration of the sampling loop (master
    switch on) whose distance measurement raises or yields d <= 0, the
    stored distance becomes [None] and the stored water height becomes 0.0;
    nothing is signalled to the gate under the key "water_low", the gate's
    memory for that key is unchanged, and no water message is handed to
    Telegram. *)
Theorem C1_failed_distance_read i w :
  slide_switch_on (in_switch i) = true ->
  read_failed i ->
  let w' := sensors_iteration i w in
  reading "distance_cm" w' = Some PyNone /\
  reading "water_height" w' = Some (PyFloat 0) /\
  gate_entry "water_low" w' = gate_entry "water_low" w /\
  Forall (fun ks => ks.1 ≠ "water_low"%string) (signalled_during w w') /\
  Forall (fun m => is_water_msg m = false) (sent_during w w').
Proof.
  intros Hon Hfail w'. subst w'.
  rewrite (sensors_iteration_on i w Hon). simpl.
  apply read_failed_not_positive in Hfail. rewrite Hfail.
  set (d := default (-1) (in_distance i)) in *.
  set (w3 := water_step i d _).
  destruct (before_soil_step i w) as (_ & _ & _ & _ & B).
  destruct (B Hfail) as (B1 & B2 & B3). clear B.
  change (alerts w3 = alerts w) in B1.
  change (signalled w3 = signalled w) in B2.
  change (telegram_outbox w3 = telegram_outbox w) in B3.
  set (h := calc_water_height BEAKER_HEIGHT_CM).
  destruct (store_step_frame d h (dht_step i (soil_step i w3)))
    as (_ & S2 & S3 & S4 & _).
  destruct (dht_step_frame i (soil_step i w3)) as (_ & D2 & D3 & D4 & _).
  destruct (soil_step_logs i w3) as (sig & out & L1 & L2 & L3 & L4).
  split; [|split; [|split; [|split]]].
  - unfold store_step. rewrite reading_set_ne by done.
    rewrite reading_set_eq. now rewrite Hfail.
  - unfold store_step. now rewrite reading_set_eq.
  - rewrite (gate_entry_alerts _ _ _ S2), (gate_entry_alerts _ _ _ D2).
    rewrite soil_step_water_entry. now apply gate_entry_alerts.
  - unfold signalled_during. rewrite S3, D3, L1, B2, drop_app_length.
    eapply Forall_impl; [exact L3|]. simpl. intros ks ->. done.
  - unfold sent_during. rewrite S4, D4, L2, B3, drop_app_length. exact L4.
Qed.

(** C4, as the code has it.  Let an iteration (master switch on) with a
    gate read "moist" at both moisture reads.  Then the motor is commanded
    off and the store says so.  Whether the "moist" message goes out is
    decided by what the gate remembers, not by the flip of the reading
    alone.  If the gate has recorded "dry" for the key "soil_dry" and at
    least [cooldown_sec] has passed since the last successful soil alert,
    the message is handed to Telegram.  Inside the cooldown it is not, and
    the gate's memory for "soil_dry" stays as it was.  And if the gate still
    remembers "moist" (the dry reading fell inside a cooldown and was never
    recorded), it is not sent either, however long ago the last alert was,
    and the gate's memory stays as it was. *)
Theorem C4_moist_after_dry i w g :
  slide_switch_on (in_switch i) = true ->
  alerts w = Some g ->
  in_moisture1 i = false -> in_moisture2 i = false ->
  let w' := sensors_iteration i w in
  let since :=
    in_soil_now i - default 0 (last_sent g !! "soil_dry"%string) in
  motor_pin w' = false /\
  reading "motor_on" w' = Some (PyInt 0) /\
  (last_state g !! "soil_dry"%string = Some true ->
   inject_Z (cooldown_sec g) <= since ->
     SoilMoistMsg ∈ sent_during w w') /\
  (since < inject_Z (cooldown_sec g) ->
     (SoilMoistMsg ∉ sent_during w w') /\
     gate_entry "soil_dry" w' = gate_entry "soil_dry" w) /\
  (last_state g !! "soil_dry"%string = Some false ->
     (SoilMoistMsg ∉ sent_during w w') /\
     gate_entry "soil_dry" w' = gate_entry "soil_dry" w).
Proof.
  intros Hon Hg Hm1 Hm2 w' since. subst w' since.
  rewrite (sensors_iteration_on i w Hon). simpl.
  set (d := default (-1) (in_distance i)).
  set (w3 := water_step i d _).
  set (h := calc_water_height _).
  destruct (before_soil_step i w) as (_ & _ & B3 & B4 & _).
  change (gate_entry "soil_dry" w3 = gate_entry "soil_dry" w) in B3.
  destruct B4 as (sigw & outw & _ & B4 & _ & B5).
  change (telegram_outbox w3 = telegram_outbox w ++ outw) in B4.
  destruct (store_step_frame d h (dht_step i (soil_step i w3)))
    as (S1 & S2 & _ & S4 & S5).
  destruct (dht_step_frame i (soil_step i w3)) as (D1 & D2 & _ & D4 & D5).
  destruct (soil_step_motor i w3) as [M1 M2].
  rewrite Hm2 in M1, M2. simpl in M1, M2.
  (* the gate as the soil step finds it *)
  unfold gate_entry in B3. rewrite Hg in B3.
  destruct (alerts w3) as [g3|] eqn:Hg3; [|discriminate].
  injection B3 as Hst Hsent.
  assert (Hcd : cooldown_sec g3 = cooldown_sec g).
  { destruct (water_step_gate i d
                (snd (ultrasonic_step i (snd (pir_active (in_pir i) w)))) g)
      as (g3' & E1 & E2 & _).
    - destruct (ultrasonic_step_frame i (snd (pir_active (in_pir i) w)))
        as (_ & _ & -> & _).
      now destruct (pir_active_frame (in_pir i) w) as (_ & -> & _).
    - change (alerts w3 = Some g3') in E1. congruence. }
  pose proof (soil_step_gate i w3) as G. simpl in G.
  rewrite Hg3, Hm1 in G. simpl in G. destruct G as (G1 & _ & G3).
  (* what a silent soil call leaves behind *)
  assert (Hsilent :
    changed g3 "soil_dry" false
      && negb (recently g3 (in_soil_now i) "soil_dry") = false ->
    (SoilMoistMsg ∉ drop (length (telegram_outbox w))
                      (telegram_outbox (store_step d h
                                          (dht_step i (soil_step i w3))))) /\
    gate_entry "soil_dry" (store_step d h (dht_step i (soil_step i w3)))
      = Some (last_state g !! "soil_dry"%string,
              last_sent g !! "soil_dry"%string)).
  { intros Hskip.
    rewrite maybe_send_skip in G1, G3 by done. simpl in G1, G3.
    rewrite S4, D4, G3, B4, app_nil_r, drop_app_length. split.
    - intros Hin. rewrite Forall_forall in B5. now apply B5 in Hin.
    - unfold gate_entry. rewrite S2, D2, G1. now rewrite Hst, Hsent. }
  split; [congruence|]. split.
  { rewrite S5, D5 by done. exact M2. }
  unfold sent_during, gate_entry at 2 4. rewrite Hg.
  split; [|split].
  - intros Hdry Hle.
    assert (Hchanged : changed g3 "soil_dry" false = true).
    { apply changed_true. rewrite Hst, Hdry. discriminate. }
    assert (Hrec : recently g3 (in_soil_now i) "soil_dry" = false).
    { apply recently_false. now rewrite Hsent, Hcd. }
    rewrite S4, D4, G3, B4, <- app_assoc, drop_app_length.
    destruct (maybe_send_attempt (Msg := alert_msg) g3 (in_soil_now i)
                "soil_dry" false SoilMoistMsg (in_soil_outcome i)
                Hchanged Hrec) as (-> & _).
    apply elem_of_app. right. now apply list_elem_of_singleton.
  - intros Hlt. apply Hsilent.
    assert (Hrec : recently g3 (in_soil_now i) "soil_dry" = true).
    { apply recently_true. now rewrite Hsent, Hcd. }
    rewrite Hrec. apply andb_false_r.
  - intros Hmoist. apply Hsilent.
    assert (Hsame : changed g3 "soil_dry" false = false).
    { apply changed_false. now rewrite Hst. }
    now rewrite Hsame.
Qed.

(** C7.  For 0 < d <= beaker_height the water height is beaker_height - d;
    for d > beaker_height it is 0; it always lies in [0, beaker_height]. *)
Theorem C7_calc_water_height d :
  (0 < d -> d <= BEAKER_HEIGHT_CM ->
     calc_water_height d == BEAKER_HEIGHT_CM - d) /\
  (BEAKER_HEIGHT_CM < d -> calc_water_height d == 0) /\
  (0 <= calc_water_height d /\ calc_water_height d <= BEAKER_HEIGHT_CM).
Proof.
  split; [|split].
  - intros H0 H1. apply calc_water_height_inside; lra.
  - intros H. now rewrite calc_water_height_above.
  - apply calc_water_height_range.
Qed.

(** C8.  An iteration of the sampling loop whose temperature measurement
    fails or lies outside [-20, 80] leaves the stored temperature and the
    stored humidity as they were; [read_dht11_both] turns such a
    measurement into (None, None), on which the keypad command "2" leaves
    the whole store as it was; and the loop goes on with the next
    iteration. *)
Theorem C8_invalid_temperature i w :
  temp_invalid (in_dht i) ->
  let w' := sensors_iteration i w in
  reading "temp_c" w' = reading "temp_c" w /\
  reading "humidity" w' = reading "humidity" w /\
  (forall raw, in_dht i = Some raw -> read_dht11_both raw = (None, None)) /\
  (forall distance, handle_keypress "2" distance (in_dht i) w = w) /\
  (forall rest,
     sensors_thread (i :: rest) w = sensors_thread rest w').
Proof.
  intros Hbad w'.
  assert (Hraw : forall raw,
            in_dht i = Some raw -> read_dht11_both raw = (None, None)).
  { intros [h [t|]] E; unfold temp_invalid in Hbad; rewrite E in Hbad;
      simpl; [|done].
    assert (Et : qle TEMP_MIN_C t && qle t TEMP_MAX_C = false).
    { unfold TEMP_MIN_C, TEMP_MAX_C. apply andb_false_iff.
      destruct Hbad as [H|H]; [left|right]; now apply qle_false. }
    now rewrite Et. }
  assert (Hkeep : forall k, k = "temp_c"%string \/ k = "humidity"%string ->
            reading k w' = reading k w).
  { intros k Hk. subst w'.
    destruct (slide_switch_on (in_switch i)) eqn:Hon.
    - rewrite (sensors_iteration_on i w Hon). simpl.
      destruct (store_step_frame (default (-1) (in_distance i))
                  (calc_water_height
                     (if qlt 0 (default (-1) (in_distance i))
                      then default (-1) (in_distance i)
                      else BEAKER_HEIGHT_CM))
                  (dht_step i (soil_step i
                     (water_step i (default (-1) (in_distance i))
                        (snd (ultrasonic_step i
                                (snd (pir_active (in_pir i) w))))))))
        as (_ & _ & _ & _ & S).
      rewrite S by (destruct Hk; subst k; done).
      rewrite dht_step_invalid by done.
      rewrite soil_step_readings by (destruct Hk; subst k; done).
      destruct (before_soil_step i w) as (_ & B & _).
      apply B. destruct Hk; subst k; done.
    - unfold sensors_iteration. rewrite Hon. simpl. unfold motor_off.
      rewrite reading_set_ne by (destruct Hk; subst k; done). done. }
  split; [apply Hkeep; now left|].
  split; [apply Hkeep; now right|].
  split; [exact Hraw|]. split; [|done].
  intros distance. unfold handle_keypress. simpl.
  destruct (in_dht i) as [raw|]; [|done].
  now rewrite (Hraw raw).
Qed.

(** C9.  Commanding the motor on twice leaves the same state as commanding
    it on once, with [readings["motor_on"] = 1] and the pin high; likewise
    for off, with [readings["motor_on"] = 0] and the pin low. *)
Theorem C9_motor_idempotent w :
  motor_on (motor_on w) = motor_on w /\
  reading "motor_on" (motor_on w) = Some (PyInt 1) /\
  motor_pin (motor_on w) = true /\
  motor_off (motor_off w) = motor_off w /\
  reading "motor_on" (motor_off w) = Some (PyInt 0) /\
  motor_pin (motor_off w) = false.
Proof.
  unfold motor_on, motor_off, set_reading, set_motor_pin, reading. simpl.
  rewrite !insert_insert_eq, !lookup_insert_eq. done.
Qed.

(** ** main.py: concrete runs *)

(** C1 as stated fails: after an iteration that stored 4 cm and 6 cm, an
    iteration whose ultrasonic read raises overwrites the stored distance
    with [None] and the stored water height with 0.0. *)
Lemma C1_counterexample :
  let w' := sensors_iteration (iteration_at 1001 None true None)
              world_dry_4cm in
  reading "distance_cm" world_dry_4cm = Some (PyFloat 4) /\
  reading "water_height" world_dry_4cm = Some (PyFloat 6) /\
  reading "distance_cm" w' = Some PyNone /\
  reading "water_height" w' = Some (PyFloat 0) /\
  reading "distance_cm" w' <> reading "distance_cm" world_dry_4cm /\
  reading "water_height" w' <> reading "water_height" world_dry_4cm.
Proof. vm_compute. repeat split; discriminate. Qed.

Lemma C1_failed_distance_read_witness :
  let w' := sensors_iteration (iteration_at 1001 (Some 0) true None)
              world_dry_4cm in
  reading "distance_cm" w' = Some PyNone /\
  reading "water_height" w' = Some (PyFloat 0) /\
  gate_entry "water_low" w' = gate_entry "water_low" world_dry_4cm /\
  Forall (fun ks => ks.1 ≠ "water_low"%string)
         (signalled_during world_dry_4cm w') /\
  Forall (fun m => is_water_msg m = false) (sent_during world_dry_4cm w').
Proof.
  apply (C1_failed_distance_read (iteration_at 1001 (Some 0) true None)
           world_dry_4cm).
  - reflexivity.
  - vm_compute. discriminate.
Defined.

(** C4 as stated fails: the soil was dry at clock reading 1000 and the
    alert went out; one second later both moisture reads say "moist".  The
    motor is switched off, the gate is asked, and nothing is handed to
    Telegram: the cooldown of the first alert is still running. *)
Lemma C4_counterexample :
  let w' := sensors_iteration (iteration_at 1001 (Some 4) false None)
              world_dry_4cm in
  gate_entry "soil_dry" world_dry_4cm = Some (Some true, Some 1000) /\
  telegram_outbox world_dry_4cm = [WaterOkMsg; SoilDryMsg] /\
  motor_pin w' = false /\
  signalled_during world_dry_4cm w'
    = [("water_low"%string, false); ("soil_dry"%string, false)] /\
  sent_during world_dry_4cm w' = [].
Proof. vm_compute. repeat split. Qed.

Lemma C4_moist_after_dry_witness :
  SoilMoistMsg ∈
    sent_during world_dry_4cm
      (sensors_iteration (iteration_at 1060 (Some 4) false None)
         world_dry_4cm) /\
  (SoilMoistMsg ∉
     sent_during world_dry_4cm
       (sensors_iteration (iteration_at 1001 (Some 4) false None)
          world_dry_4cm)) /\
  (SoilMoistMsg ∉
     sent_during world_unrecorded_dry
       (sensors_iteration (iteration_at 1070 (Some 4) false None)
          world_unrecorded_dry)).
Proof.
  split; [|split].
  - destruct (C4_moist_after_dry (iteration_at 1060 (Some 4) false None)
                world_dry_4cm (gate_of world_dry_4cm))
      as (_ & _ & H & _); [reflexivity|reflexivity|reflexivity|reflexivity|].
    apply H; [reflexivity|]. vm_compute. discriminate.
  - destruct (C4_moist_after_dry (iteration_at 1001 (Some 4) false None)
                world_dry_4cm (gate_of world_dry_4cm))
      as (_ & _ & _ & H & _);
      [reflexivity|reflexivity|reflexivity|reflexivity|].
    apply H. reflexivity.
  - destruct (C4_moist_after_dry (iteration_at 1070 (Some 4) false None)
                world_unrecorded_dry (gate_of world_unrecorded_dry))
      as (_ & _ & _ & _ & H);
      [reflexivity|reflexivity|reflexivity|reflexivity|].
    apply H. reflexivity.
Defined.

Lemma C7_calc_water_height_witness :
  calc_water_height 8 == BEAKER_HEIGHT_CM - 8 /\
  calc_water_height 12 == 0.
Proof.
  split.
  - destruct (C7_calc_water_height 8) as (H & _ & _).
    apply H; [reflexivity | vm_compute; discriminate].
  - destruct (C7_calc_water_height 12) as (_ & H & _).
    apply H. reflexivity.
Defined.

Lemma C8_invalid_temperature_witness :
  let w' := sensors_iteration
              (iteration_at 1010 (Some 4) true (Some (Some 40, Some 150)))
              world_dry_4cm in
  reading "temp_c" w' = reading "temp_c" world_dry_4cm /\
  reading "humidity" w' = reading "humidity" world_dry_4cm.
Proof.
  destruct (C8_invalid_temperature
              (iteration_at 1010 (Some 4) true (Some (Some 40, Some 150)))
              world_dry_4cm) as (H1 & H2 & _).
  - right. reflexivity.
  - split; assumption.
Defined.

(** * Further properties of the code *)

(** ** main.py: the control state is closed under the steps *)

Ltac world_steps :=
  unfold control_state, soil_step, check_and_drive_motor, moisture_is_dry,
    water_step, ultrasonic_step, pir_active, store_step, motor_on, motor_off,
    everything_off, alerts_maybe_send, set_reading, set_motor_pin,
    set_last_distance_cm, set_last_dht_time in *.

Lemma control_alerts_maybe_send now key state msg outcome w :
  control_state (alerts_maybe_send now key state msg outcome w)
    = control_state w.
Proof. world_steps. now destruct (alerts w). Qed.

Lemma control_motor_off w1 w2 :
  control_state w1 = control_state w2 ->
  control_state (motor_off w1) = control_state (motor_off w2).
Proof.
  destruct w1, w2. world_steps. simpl. intros [= -> _ -> ->]. done.
Qed.

Lemma control_pir level w1 w2 :
  control_state w1 = control_state w2 ->
  control_state (snd (pir_active level w1))
    = control_state (snd (pir_active level w2)).
Proof.
  destruct w1, w2. world_steps. simpl. intros [= -> -> -> ->]. done.
Qed.

Lemma control_ultrasonic i1 i2 w1 w2 :
  in_distance i1 = in_distance i2 ->
  control_state w1 = control_state w2 ->
  fst (ultrasonic_step i1 w1) = fst (ultrasonic_step i2 w2) /\
  control_state (snd (ultrasonic_step i1 w1))
    = control_state (snd (ultrasonic_step i2 w2)).
Proof.
  destruct w1, w2. world_steps. simpl. intros -> [= -> -> -> ->].
  now destruct (in_distance i2).
Qed.

Lemma control_water i distance w :
  control_state (water_step i distance w) = control_state w.
Proof.
  unfold water_step. destruct (qlt 0 distance); [|done].
  destruct (qlt WATER_LOW_DISTANCE_CM distance);
    apply control_alerts_maybe_send.
Qed.

Lemma control_soil i1 i2 w1 w2 :
  in_moisture1 i1 = in_moisture1 i2 -> in_moisture2 i1 = in_moisture2 i2 ->
  control_state w1 = control_state w2 ->
  control_state (soil_step i1 w1) = control_state (soil_step i2 w2).
Proof.
  intros H1 H2 H. unfold soil_step.
  destruct (moisture_is_dry (in_moisture1 i1) w1) as [d1 u1] eqn:E1.
  destruct (moisture_is_dry (in_moisture1 i2) w2) as [d2 u2] eqn:E2.
  rewrite !control_alerts_maybe_send.
  destruct w1, w2. world_steps. simpl in *. rewrite H1, H2 in *.
  injection E1 as <- <-. injection E2 as <- <-.
  injection H as -> -> -> ->.
  now destruct (eqb (in_moisture2 i2) MOISTURE_IS_DRY_LEVEL).
Qed.

Lemma control_dht i1 i2 w1 w2 :
  in_now i1 = in_now i2 -> in_dht i1 = in_dht i2 ->
  control_state w1 = control_state w2 ->
  control_state (dht_step i1 w1) = control_state (dht_step i2 w2).
Proof.
  intros H1 H2 H. unfold dht_step. rewrite H1, H2.
  destruct w1, w2. world_steps. simpl in *.
  injection H as -> -> -> ->.
  destruct (qle DHT_PERIOD _); [|done].
  destruct (in_dht i2) as [[[h|] [t|]]|]; simpl; try done;
    now destruct (qle TEMP_MIN_C t && qle t TEMP_MAX_C).
Qed.

Lemma control_store distance height w1 w2 :
  control_state w1 = control_state w2 ->
  control_state (store_step distance height w1)
    = control_state (store_step distance height w2).
Proof.
  destruct w1, w2. world_steps. simpl. intros [= -> -> -> ->]. done.
Qed.

Lemma control_sensors_iteration i1 i2 w1 w2 :
  same_sensors i1 i2 ->
  control_state w1 = control_state w2 ->
  control_state (sensors_iteration i1 w1)
    = control_state (sensors_iteration i2 w2).
Proof.
  intros (Hsw & Hpir & Hd & Hm1 & Hm2 & Hnow & Hdht) H.
  destruct (slide_switch_on (in_switch i2)) eqn:Hon.
  - rewrite (sensors_iteration_on i1 w1) by (now rewrite Hsw).
    rewrite (sensors_iteration_on i2 w2 Hon). simpl. rewrite Hd.
    apply control_store, control_dht; try done.
    apply control_soil; try done.
    rewrite !control_water.
    apply control_ultrasonic; [done|]. rewrite Hpir.
    now apply control_pir.
  - unfold sensors_iteration. rewrite Hsw, Hon. simpl.
    now apply control_motor_off.
Qed.

(** The readings, the motor, the remembered distance and the DHT timer
    after a run of the sampling loop depend on the sensor inputs only: not
    on whether a gate is configured, not on what the gate remembers, not on
    Telegram's answers, not on the clock readings taken by the gate. *)
Theorem alerts_never_steer_control inputs1 inputs2 w1 w2 :
  Forall2 same_sensors inputs1 inputs2 ->
  control_state w1 = control_state w2 ->
  control_state (sensors_thread inputs1 w1)
    = control_state (sensors_thread inputs2 w2).
Proof.
  intros Hin. revert w1 w2.
  induction Hin as [|i1 i2 r1 r2 Hi _ IH]; intros w1 w2 H; simpl; [done|].
  apply IH. now apply control_sensors_iteration.
Qed.

(** ** main.py: handle_keypress *)

Lemma handle_keypress_cases key distance dht w :
  handle_keypress key distance dht w = w \/
  (exists d, key = "1"%string /\ distance = Some d /\ 0 < d /\
     handle_keypress key distance dht w
       = set_reading "water_height" (PyFloat (calc_water_height d))
           (set_reading "distance_cm" (PyFloat d) w)) \/
  (exists h t, key = "2"%string /\ dht = Some (h, Some t) /\
     TEMP_MIN_C <= t /\ t <= TEMP_MAX_C /\
     handle_keypress key distance dht w
       = match h with
         | Some hv => set_reading "humidity" (PyFloat hv)
                        (set_reading "temp_c" (PyFloat t) w)
         | None => set_reading "temp_c" (PyFloat t) w
         end).
Proof.
  unfold handle_keypress.
  destruct (String.eqb key "1") eqn:E1.
  - apply String.eqb_eq in E1.
    destruct distance as [d|]; [|now left].
    destruct (qle d 0) eqn:E; [now left|].
    apply qle_false in E. right. left. exists d. done.
  - destruct (String.eqb key "2") eqn:E2; [|now left].
    apply String.eqb_eq in E2.
    destruct dht as [[h [t|]]|]; simpl; try (now left).
    destruct (qle TEMP_MIN_C t && qle t TEMP_MAX_C) eqn:E; simpl;
      [|now left].
    apply andb_true_iff in E as [Ea Eb].
    apply qle_true in Ea, Eb.
    right. right. exists h, t. done.
Qed.

(** A key press touches nothing but the four measurement entries of the
    store: not the motor pin, not the gate, not the logs, not the DHT timer.
    Any key other than "1" and "2", a distance read that raised or gave a
    value <= 0, and a temperature read that raised, gave no temperature or
    one outside [-20, 80] leave the whole state as it was. *)
Theorem handle_keypress_footprint key distance dht w :
  let w' := handle_keypress key distance dht w in
  motor_pin w' = motor_pin w /\
  alert_state w' = alert_state w /\
  last_dht_time w' = last_dht_time w /\
  (forall k, k ≠ "distance_cm"%string -> k ≠ "water_height"%string ->
             k ≠ "temp_c"%string -> k ≠ "humidity"%string ->
             reading k w' = reading k w) /\
  (key ≠ "1"%string -> key ≠ "2"%string -> w' = w) /\
  (key = "1"%string -> (forall d, distance = Some d -> d <= 0) -> w' = w) /\
  (key = "2"%string -> temp_invalid dht -> w' = w).
Proof.
  intros w'. subst w'.
  split; [|split; [|split; [|split; [|split; [|split]]]]].
  - destruct (handle_keypress_cases key distance dht w)
      as [->|[(d & _ & _ & _ & ->)|(h & t & _ & _ & _ & _ & ->)]];
      try done. now destruct h.
  - destruct (handle_keypress_cases key distance dht w)
      as [->|[(d & _ & _ & _ & ->)|(h & t & _ & _ & _ & _ & ->)]];
      try done. now destruct h.
  - destruct (handle_keypress_cases key distance dht w)
      as [->|[(d & _ & _ & _ & ->)|(h & t & _ & _ & _ & _ & ->)]];
      try done. now destruct h.
  - intros k K1 K2 K3 K4.
    destruct (handle_keypress_cases key distance dht w)
      as [->|[(d & _ & _ & _ & ->)|(h & t & _ & _ & _ & _ & ->)]];
      try done.
    + now rewrite !reading_set_ne.
    + destruct h; now rewrite !reading_set_ne.
  - intros K1 K2. unfold handle_keypress.
    apply String.eqb_neq in K1, K2. now rewrite K1, K2.
  - intros -> Hd. unfold handle_keypress. simpl.
    destruct distance as [d|]; [|done].
    assert (E : qle d 0 = true) by (apply qle_true; auto).
    now rewrite E.
  - intros -> Hbad. unfold handle_keypress. simpl.
    destruct dht as [[h [t|]]|]; simpl; try done.
    unfold temp_invalid in Hbad.
    assert (E : qle TEMP_MIN_C t && qle t TEMP_MAX_C = false).
    { unfold TEMP_MIN_C, TEMP_MAX_C. apply andb_false_iff.
      destruct Hbad as [H|H]; [left|right]; now apply qle_false. }
    now rewrite E.
Qed.

(** ** main.py: invariants of the store *)

Lemma store_schema_init : store_schema readings_init.
Proof.
  split; [done|]. intros key v H.
  unfold readings_init in H.
  repeat (apply lookup_insert_Some in H as [[<- <-]|[_ H]];
          [vm_compute; auto|]).
  now rewrite lookup_empty in H.
Qed.

Lemma store_schema_insert key v m :
  key ∈ dom readings_init -> well_typed key v ->
  store_schema m -> store_schema (<[key := v]> m).
Proof.
  intros Hk Hv [Hdom Hty]. split.
  - rewrite dom_insert_L, Hdom. apply subseteq_union_1_L.
    now apply singleton_subseteq_l.
  - intros k u H. apply lookup_insert_Some in H as [[<- <-]|[_ H]]; auto.
Qed.

Ltac store_key := rewrite elem_of_dom; vm_compute; eauto.

Lemma well_typed_flag_soil b : well_typed "soil_dry" (py_bool_int b).
Proof. destruct b; vm_compute; auto. Qed.

Lemma well_typed_flag_pir b : well_typed "pir_active" (py_bool_int b).
Proof. destruct b; vm_compute; auto. Qed.

Lemma well_typed_flag_motor b : well_typed "motor_on" (py_bool_int b).
Proof. destruct b; vm_compute; auto. Qed.

Lemma well_typed_water_height d :
  well_typed "water_height" (PyFloat (calc_water_height d)).
Proof.
  unfold well_typed. simpl. right. exists (calc_water_height d).
  split; [done|]. apply calc_water_height_range.
Qed.

Lemma soil_step_store i w :
  readings (soil_step i w)
    = <["motor_on"%string :=
          py_bool_int (eqb (in_moisture2 i) MOISTURE_IS_DRY_LEVEL)]>
      (<["soil_dry"%string :=
          py_bool_int (eqb (in_moisture2 i) MOISTURE_IS_DRY_LEVEL)]>
       (<["soil_dry"%string :=
          py_bool_int (eqb (in_moisture1 i) MOISTURE_IS_DRY_LEVEL)]>
        (readings w))).
Proof.
  unfold soil_step, check_and_drive_motor, moisture_is_dry. simpl.
  rewrite (proj1 (alerts_maybe_send_frame _ _ _ _ _ _)).
  now destruct (eqb (in_moisture2 i) MOISTURE_IS_DRY_LEVEL).
Qed.

Lemma dht_step_schema i w :
  store_schema (readings w) -> store_schema (readings (dht_step i w)).
Proof.
  intros H. unfold dht_step.
  destruct (qle DHT_PERIOD _); [|done].
  destruct (in_dht i) as [[h [t|]]|]; simpl; try done.
  destruct (qle TEMP_MIN_C t && qle t TEMP_MAX_C) eqn:E; simpl; [|done].
  apply andb_true_iff in E as [Ea Eb]. apply qle_true in Ea, Eb.
  assert (Ht : store_schema (<["temp_c"%string := PyFloat t]> (readings w))).
  { apply store_schema_insert; [store_key| |done].
    unfold well_typed. simpl. right. eauto. }
  destruct h as [hv|]; simpl; [|done].
  apply store_schema_insert; [store_key| |done].
  unfold well_typed. simpl. right. eauto.
Qed.

Lemma sensors_iteration_schema i w :
  store_schema (readings w) ->
  store_schema (readings (sensors_iteration i w)).
Proof.
  intros H. destruct (slide_switch_on (in_switch i)) eqn:Hon.
  - rewrite (sensors_iteration_on i w Hon). simpl.
    unfold store_step. simpl.
    apply store_schema_insert; [store_key|apply well_typed_water_height|].
    apply store_schema_insert; [store_key| |].
    { destruct (qlt 0 _) eqn:E; [|vm_compute; auto].
      apply qlt_true in E. unfold well_typed. simpl. right. eauto. }
    apply dht_step_schema. rewrite soil_step_store.
    apply store_schema_insert; [store_key|apply well_typed_flag_motor|].
    apply store_schema_insert; [store_key|apply well_typed_flag_soil|].
    apply store_schema_insert; [store_key|apply well_typed_flag_soil|].
    rewrite (proj1 (water_step_readings _ _ _)).
    rewrite (proj1 (ultrasonic_step_frame _ _)).
    unfold pir_active. simpl.
    apply store_schema_insert; [store_key|apply well_typed_flag_pir|done].
  - unfold sensors_iteration. rewrite Hon. simpl.
    apply store_schema_insert;
      [store_key|apply (well_typed_flag_motor false)|done].
Qed.

Lemma handle_keypress_schema key distance dht w :
  store_schema (readings w) ->
  store_schema (readings (handle_keypress key distance dht w)).
Proof.
  intros H.
  destruct (handle_keypress_cases key distance dht w)
    as [->|[(d & _ & _ & Hd & ->)|(h & t & _ & _ & Ha & Hb & ->)]];
    [done| |].
  - simpl.
    apply store_schema_insert; [store_key|apply well_typed_water_height|].
    apply store_schema_insert; [store_key| |done].
    unfold well_typed. simpl. right. eauto.
  - assert (Ht : store_schema
                   (<["temp_c"%string := PyFloat t]> (readings w))).
    { apply store_schema_insert; [store_key| |done].
      unfold well_typed. simpl. right. eauto. }
    destruct h as [hv|]; simpl; [|done].
    apply store_schema_insert; [store_key| |done].
    unfold well_typed. simpl. right. eauto.
Qed.

Lemma apply_op_schema o w :
  store_schema (readings w) -> store_schema (readings (apply_op o w)).
Proof.
  intros H. destruct o as [i|key distance dht|level|]; simpl.
  - now apply sensors_iteration_schema.
  - now apply handle_keypress_schema.
  - apply store_schema_insert; [store_key|apply well_typed_flag_pir|done].
  - apply store_schema_insert;
      [store_key|apply (well_typed_flag_motor false)|done].
Qed.

Lemma apply_ops_schema os : forall w,
  store_schema (readings w) -> store_schema (readings (apply_ops os w)).
Proof.
  induction os as [|o os IH]; intros w H; simpl; [done|].
  now apply IH, apply_op_schema.
Qed.

(** Whatever the threads do, in whatever order, the store keeps exactly its
    seven keys, and every key holds a value of its kind: a temperature is
    unset or within [-20, 80], a distance is unset or positive, a water
    height is unset or within [0, 10], the flags are unset or 0 or 1, and
    "motor_on" is 0 or 1.  So a lookup of one of the seven keys never
    fails. *)
Theorem store_schema_invariant os gate :
  store_schema (readings (apply_ops os (World_init gate))) /\
  forall key, key ∈ dom readings_init ->
    is_Some (reading key (apply_ops os (World_init gate))).
Proof.
  assert (H0 : store_schema (readings (apply_ops os (World_init gate)))).
  { apply apply_ops_schema. simpl. apply store_schema_init. }
  split; [done|]. intros key Hk. unfold reading.
  apply elem_of_dom. now rewrite (proj1 H0).
Qed.

Lemma motor_off_idem w : motor_off (motor_off w) = motor_off w.
Proof.
  unfold motor_off, set_reading, set_motor_pin. simpl.
  now rewrite insert_insert_eq.
Qed.

(** After an iteration with the switch on, the motor pin, the stored
    "motor_on" and the stored "soil_dry" all follow the second moisture
    read. *)
Lemma sensors_iteration_motor i w :
  slide_switch_on (in_switch i) = true ->
  let dry2 := eqb (in_moisture2 i) MOISTURE_IS_DRY_LEVEL in
  motor_pin (sensors_iteration i w) = dry2 /\
  reading "motor_on" (sensors_iteration i w) = Some (py_bool_int dry2) /\
  reading "soil_dry" (sensors_iteration i w) = Some (py_bool_int dry2).
Proof.
  intros Hon dry2. rewrite (sensors_iteration_on i w Hon). cbv zeta.
  set (d := default (-1) (in_distance i)).
  set (w3 := water_step i d _).
  set (h := calc_water_height _).
  destruct (store_step_frame d h (dht_step i (soil_step i w3)))
    as (S1 & _ & _ & _ & S5).
  destruct (dht_step_frame i (soil_step i w3)) as (D1 & _ & _ & _ & D5).
  destruct (soil_step_motor i w3) as [M1 M2].
  rewrite S1, D1, !S5, !D5 by done.
  split; [done|]. split; [done|].
  unfold reading. rewrite soil_step_store.
  rewrite lookup_insert_ne by done. apply lookup_insert_eq.
Qed.

Lemma water_consistent_frame w w' :
  reading "distance_cm" w' = reading "distance_cm" w ->
  reading "water_height" w' = reading "water_height" w ->
  water_consistent w -> water_consistent w'.
Proof. unfold water_consistent. now intros -> ->. Qed.

Lemma water_consistent_set d w :
  0 < d ->
  water_consistent
    (set_reading "water_height" (PyFloat (calc_water_height d))
       (set_reading "distance_cm" (PyFloat d) w)).
Proof.
  intros Hd. right. exists d. split; [done|].
  rewrite reading_set_ne, !reading_set_eq by done. done.
Qed.

Lemma sensors_iteration_water_consistent i w :
  water_consistent w -> water_consistent (sensors_iteration i w).
Proof.
  intros H. destruct (slide_switch_on (in_switch i)) eqn:Hon.
  - rewrite (sensors_iteration_on i w Hon). simpl. unfold store_step.
    destruct (qlt 0 (default (-1) (in_distance i))) eqn:E.
    + apply water_consistent_set. now apply qlt_true.
    + left. rewrite reading_set_ne, !reading_set_eq by done.
      split; [done|]. now right.
  - unfold sensors_iteration. rewrite Hon. simpl.
    apply (water_consistent_frame w); [| |done];
      unfold motor_off; now rewrite reading_set_ne.
Qed.

Lemma handle_keypress_water_consistent key distance dht w :
  water_consistent w ->
  water_consistent (handle_keypress key distance dht w).
Proof.
  intros H.
  destruct (handle_keypress_cases key distance dht w)
    as [->|[(d & _ & _ & Hd & ->)|(h & t & _ & _ & _ & _ & ->)]];
    [done| |].
  - now apply water_consistent_set.
  - apply (water_consistent_frame w); [| |done];
      destruct h; now rewrite !reading_set_ne.
Qed.

(** Whatever the threads do, in whatever order, the stored distance and the
    stored water height belong together: the distance is unset and the
    height is unset or 0.0, or the distance is positive and the height is
    the one [calc_water_height] gives for it. *)
Theorem stored_water_height_matches_distance os gate :
  water_consistent (apply_ops os (World_init gate)).
Proof.
  assert (H : forall os w,
            water_consistent w -> water_consistent (apply_ops os w)).
  { clear. induction os as [|o os IH]; intros w H; simpl; [done|].
    apply IH. destruct o as [i|key distance dht|level|]; simpl.
    - now apply sensors_iteration_water_consistent.
    - now apply handle_keypress_water_consistent.
    - apply (water_consistent_frame w); [| |done];
        now rewrite reading_set_ne.
    - apply (water_consistent_frame w); [| |done];
        unfold everything_off, motor_off; now rewrite reading_set_ne. }
  apply H. left. split; [reflexivity | now left].
Qed.

(** ** main.py: single iterations of the sampling loop *)

Lemma alerts_maybe_send_none now key state msg outcome w :
  alerts w = None -> alerts_maybe_send now key state msg outcome w = w.
Proof. intros H. unfold alerts_maybe_send. now rewrite H. Qed.

Lemma alert_state_eq w w' :
  alerts w' = alerts w -> signalled w' = signalled w ->
  telegram_outbox w' = telegram_outbox w -> alert_state w' = alert_state w.
Proof. unfold alert_state. now intros -> -> ->. Qed.

Lemma sensors_iteration_no_gate i w :
  alerts w = None -> alert_state (sensors_iteration i w) = alert_state w.
Proof.
  intros Hnone. destruct (slide_switch_on (in_switch i)) eqn:Hon.
  - rewrite (sensors_iteration_on i w Hon). cbv zeta.
    set (d := default (-1) (in_distance i)).
    set (w2 := snd (ultrasonic_step i _)).
    assert (H2 : alert_state w2 = alert_state w).
    { destruct (ultrasonic_step_frame i (snd (pir_active (in_pir i) w)))
        as (_ & _ & U2 & U3 & U4).
      destruct (pir_active_frame (in_pir i) w) as (_ & P2 & P3 & P4 & _).
      subst w2. apply alert_state_eq; congruence. }
    assert (Hn2 : alerts w2 = None).
    { unfold alert_state in H2. congruence. }
    assert (H3 : water_step i d w2 = w2).
    { unfold water_step. rewrite !alerts_maybe_send_none by done.
      now destruct (qlt 0 d), (qlt WATER_LOW_DISTANCE_CM d). }
    rewrite H3.
    destruct (store_step_frame d
                (calc_water_height (if qlt 0 d then d else BEAKER_HEIGHT_CM))
                (dht_step i (soil_step i w2))) as (_ & S2 & S3 & S4 & _).
    destruct (dht_step_frame i (soil_step i w2)) as (_ & D2 & D3 & D4 & _).
    pose proof (soil_step_gate i w2) as G. simpl in G. rewrite Hn2 in G.
    destruct G as (G1 & G2 & G3).
    rewrite <- H2. apply alert_state_eq; congruence.
  - unfold sensors_iteration. now rewrite Hon.
Qed.

(** Without a Telegram configuration (no gate), nothing the threads do ever
    signals a state or hands a message to Telegram. *)
Theorem no_gate_no_alerts os :
  alert_state (apply_ops os (World_init None)) = (None, [], []).
Proof.
  assert (H : forall os w, alerts w = None ->
                alert_state (apply_ops os w) = alert_state w).
  { clear. induction os as [|o os IH]; intros w H; simpl; [done|].
    assert (Ho : alert_state (apply_op o w) = alert_state w).
    { destruct o as [i|key distance dht|level|]; simpl.
      - now apply sensors_iteration_no_gate.
      - destruct (handle_keypress_cases key distance dht w)
          as [->|[(d & _ & _ & _ & ->)|(h & t & _ & _ & _ & _ & ->)]];
          try done. now destruct h.
      - done.
      - done. }
    rewrite IH, Ho; [done|]. unfold alert_state in Ho. congruence. }
  now rewrite H.
Qed.

(** While the master switch is off, the loop does nothing but command the
    motor off: however many iterations pass, the state is the one a single
    [motor_off] gives, so the pin is low, every other entry of the store
    keeps its stale value, the DHT timer stands still and nothing reaches
    the gate or Telegram. *)
Theorem switch_off_only_stops_motor inputs w :
  inputs ≠ [] ->
  Forall (fun i => slide_switch_on (in_switch i) = false) inputs ->
  let w' := sensors_thread inputs w in
  w' = motor_off w /\
  motor_pin w' = false /\
  reading "motor_on" w' = Some (PyInt 0) /\
  (forall k, k ≠ "motor_on"%string -> reading k w' = reading k w) /\
  alert_state w' = alert_state w /\
  last_dht_time w' = last_dht_time w.
Proof.
  intros Hne Hoff w'.
  assert (H : w' = motor_off w).
  { subst w'. revert w. induction Hoff as [|i rest Hi _ IH]; intros w;
      [done|].
    simpl. unfold sensors_iteration at 1. rewrite Hi. simpl.
    destruct rest as [|j rest']; [done|].
    rewrite IH by done. apply motor_off_idem. }
  rewrite H. repeat split.
  - unfold motor_off. now rewrite reading_set_eq.
  - intros k Hk. unfold motor_off. now rewrite reading_set_ne.
Qed.

Lemma water_step_signalled i d w g :
  alerts w = Some g -> 0 < d ->
  signalled (water_step i d w)
    = signalled w ++ [("water_low"%string, qlt WATER_LOW_DISTANCE_CM d)].
Proof.
  intros Hg Hd. unfold water_step.
  assert (E : qlt 0 d = true) by now apply qlt_true.
  rewrite E. unfold alerts_maybe_send.
  destruct (qlt WATER_LOW_DISTANCE_CM d); now rewrite Hg.
Qed.

(** An iteration (switch on) whose distance read gives d > 0 stores d and
    the water height computed from d.  If a gate is configured, the first
    thing signalled is the key "water_low" with state "d > 7": a distance of
    exactly 7 counts as not low. *)
Theorem valid_distance_is_stored_and_signalled i w d :
  slide_switch_on (in_switch i) = true ->
  in_distance i = Some d -> 0 < d ->
  let w' := sensors_iteration i w in
  reading "distance_cm" w' = Some (PyFloat d) /\
  reading "water_height" w' = Some (PyFloat (calc_water_height d)) /\
  (forall g, alerts w = Some g ->
     (WATER_LOW_DISTANCE_CM < d ->
        head (signalled_during w w') = Some ("water_low"%string, true)) /\
     (d <= WATER_LOW_DISTANCE_CM ->
        head (signalled_during w w') = Some ("water_low"%string, false))).
Proof.
  intros Hon Hd Hpos w'. subst w'.
  rewrite (sensors_iteration_on i w Hon). cbv zeta. rewrite Hd. simpl default.
  assert (E : qlt 0 d = true) by now apply qlt_true.
  rewrite E. unfold store_step at 1 2. rewrite E.
  rewrite reading_set_ne, !reading_set_eq by done.
  split; [done|]. split; [done|].
  intros g Hg.
  set (w2 := snd (ultrasonic_step i _)).
  destruct (store_step_frame d (calc_water_height d)
              (dht_step i (soil_step i (water_step i d w2))))
    as (_ & _ & S3 & _).
  destruct (dht_step_frame i (soil_step i (water_step i d w2)))
    as (_ & _ & D3 & _).
  destruct (soil_step_logs i (water_step i d w2)) as (sig & out & L1 & _).
  assert (Hg2 : alerts w2 = Some g).
  { destruct (ultrasonic_step_frame i (snd (pir_active (in_pir i) w)))
      as (_ & _ & U2 & _).
    destruct (pir_active_frame (in_pir i) w) as (_ & P2 & _).
    subst w2. congruence. }
  assert (Hs2 : signalled w2 = signalled w).
  { destruct (ultrasonic_step_frame i (snd (pir_active (in_pir i) w)))
      as (_ & _ & _ & U3 & _).
    destruct (pir_active_frame (in_pir i) w) as (_ & _ & P3 & _).
    subst w2. congruence. }
  assert (Hsig : signalled_during w
                   (store_step d (calc_water_height d)
                      (dht_step i (soil_step i (water_step i d w2))))
                 = ("water_low"%string, qlt WATER_LOW_DISTANCE_CM d) :: sig).
  { unfold signalled_during.
    rewrite S3, D3, L1, (water_step_signalled i d w2 g Hg2 Hpos), Hs2.
    now rewrite <- app_assoc, drop_app_length. }
  rewrite Hsig. simpl. split; intros H.
  - apply qlt_true in H. now rewrite H.
  - apply qlt_false in H. now rewrite H.
Qed.

(** When the two moisture reads of an iteration disagree, the gate is told
    the first and the motor follows the second: the motor pin, the stored
    "motor_on" and the stored "soil_dry" come from the read inside
    [check_and_drive_motor], the state signalled under "soil_dry" and the
    text of any soil message from the read before it. *)
Theorem soil_alert_first_read_motor_second_read i w g :
  slide_switch_on (in_switch i) = true ->
  alerts w = Some g ->
  let dry1 := eqb (in_moisture1 i) MOISTURE_IS_DRY_LEVEL in
  let dry2 := eqb (in_moisture2 i) MOISTURE_IS_DRY_LEVEL in
  let w' := sensors_iteration i w in
  motor_pin w' = dry2 /\
  reading "motor_on" w' = Some (py_bool_int dry2) /\
  reading "soil_dry" w' = Some (py_bool_int dry2) /\
  last (signalled_during w w') = Some ("soil_dry"%string, dry1) /\
  Forall (fun m => is_water_msg m = true \/
                   m = (if dry1 then SoilDryMsg else SoilMoistMsg))
         (sent_during w w').
Proof.
  intros Hon Hg dry1 dry2 w'.
  destruct (sensors_iteration_motor i w Hon) as (M1 & M2 & M3).
  split; [done|]. split; [done|]. split; [done|].
  subst w'. rewrite (sensors_iteration_on i w Hon). cbv zeta.
  set (d := default (-1) (in_distance i)).
  set (w2 := snd (ultrasonic_step i _)).
  assert (Hg2 : alerts w2 = Some g).
  { destruct (ultrasonic_step_frame i (snd (pir_active (in_pir i) w)))
      as (_ & _ & U2 & _).
    destruct (pir_active_frame (in_pir i) w) as (_ & P2 & _).
    subst w2. congruence. }
  destruct (water_step_gate i d w2 g Hg2) as (g3 & Hg3 & _).
  destruct (before_soil_step i w) as (_ & _ & _ & B & _).
  destruct B as (sigw & outw & B1 & B2 & _ & B4).
  change (signalled (water_step i d w2) = signalled w ++ sigw) in B1.
  change (telegram_outbox (water_step i d w2) = telegram_outbox w ++ outw)
    in B2.
  pose proof (soil_step_gate i (water_step i d w2)) as G. simpl in G.
  rewrite Hg3 in G. destruct G as (_ & G2 & G3).
  destruct (store_step_frame d
              (calc_water_height (if qlt 0 d then d else BEAKER_HEIGHT_CM))
              (dht_step i (soil_step i (water_step i d w2))))
    as (_ & _ & S3 & S4 & _).
  destruct (dht_step_frame i (soil_step i (water_step i d w2)))
    as (_ & _ & D3 & D4 & _).
  unfold signalled_during, sent_during.
  rewrite S3, S4, D3, D4, G2, G3, B1, B2, <- !app_assoc, !drop_app_length.
  split; [apply last_snoc|].
  apply Forall_app. split.
  - eapply Forall_impl; [exact B4|]. simpl. auto.
  - unfold maybe_send. destruct (_ && _); simpl; [|constructor].
    constructor; [now right | constructor].
Qed.

Lemma before_dht_step i w :
  let d := default (-1) (in_distance i) in
  let w4 := soil_step i
              (water_step i d
                 (snd (ultrasonic_step i (snd (pir_active (in_pir i) w))))) in
  last_dht_time w4 = last_dht_time w /\
  reading "temp_c" w4 = reading "temp_c" w /\
  reading "humidity" w4 = reading "humidity" w.
Proof.
  intros d w4. subst w4. split; [|split].
  - pose proof (control_soil i i
                  (water_step i d
                     (snd (ultrasonic_step i (snd (pir_active (in_pir i) w)))))
                  (snd (ultrasonic_step i (snd (pir_active (in_pir i) w))))
                  eq_refl eq_refl (control_water _ _ _)) as H.
    assert (H' : last_dht_time
                   (soil_step i
                      (snd (ultrasonic_step i
                              (snd (pir_active (in_pir i) w)))))
                 = last_dht_time w).
    { unfold soil_step, check_and_drive_motor, moisture_is_dry,
        alerts_maybe_send, ultrasonic_step, pir_active. simpl.
      destruct (in_distance i), (eqb (in_moisture2 i) _); simpl;
        destruct (alerts w); reflexivity. }
    unfold control_state in H. congruence.
  - rewrite soil_step_readings by done.
    destruct (before_soil_step i w) as (_ & B & _). now apply B.
  - rewrite soil_step_readings by done.
    destruct (before_soil_step i w) as (_ & B & _). now apply B.
Qed.

(** The DHT sensor is asked at most once per [DHT_PERIOD] = 5 seconds: an
    iteration that comes earlier leaves the stored temperature, the stored
    humidity and the timer alone, whatever the sensor would have said; an
    iteration that is due restarts the timer at its own clock reading, also
    when the read then fails. *)
Theorem dht_refresh_cadence i w :
  slide_switch_on (in_switch i) = true ->
  let w' := sensors_iteration i w in
  (in_now i - last_dht_time w < DHT_PERIOD ->
     last_dht_time w' = last_dht_time w /\
     reading "temp_c" w' = reading "temp_c" w /\
     reading "humidity" w' = reading "humidity" w) /\
  (DHT_PERIOD <= in_now i - last_dht_time w ->
     last_dht_time w' = in_now i).
Proof.
  intros Hon w'. subst w'.
  rewrite (sensors_iteration_on i w Hon). cbv zeta.
  destruct (before_dht_step i w) as (T & R1 & R2).
  set (d := default (-1) (in_distance i)) in *.
  set (w4 := soil_step i _) in *.
  set (h := calc_water_height _).
  destruct (store_step_frame d h (dht_step i w4)) as (_ & _ & _ & _ & S).
  assert (St : last_dht_time (store_step d h (dht_step i w4))
               = last_dht_time (dht_step i w4)) by reflexivity.
  rewrite St, !S by done. split.
  - intros Hearly. apply qle_false in Hearly.
    unfold dht_step. rewrite T, Hearly. done.
  - intros Hdue. apply qle_true in Hdue.
    unfold dht_step. rewrite T, Hdue.
    destruct (in_dht i) as [[[hv|] [t|]]|]; simpl; try done;
      now destruct (qle TEMP_MIN_C t && qle t TEMP_MAX_C).
Qed.

(** A due DHT read with a temperature within [-20, 80] replaces the stored
    temperature.  The stored humidity is replaced only if the sensor gave
    one: with a temperature but no humidity, the new temperature is stored
    next to the old humidity. *)
Theorem dht_valid_read_updates_store i w h t :
  slide_switch_on (in_switch i) = true ->
  DHT_PERIOD <= in_now i - last_dht_time w ->
  in_dht i = Some (h, Some t) ->
  TEMP_MIN_C <= t -> t <= TEMP_MAX_C ->
  let w' := sensors_iteration i w in
  reading "temp_c" w' = Some (PyFloat t) /\
  reading "humidity" w'
    = match h with
      | Some hv => Some (PyFloat hv)
      | None => reading "humidity" w
      end.
Proof.
  intros Hon Hdue Hdht Hlo Hhi w'. subst w'.
  rewrite (sensors_iteration_on i w Hon). cbv zeta.
  destruct (before_dht_step i w) as (T & R1 & R2).
  set (d := default (-1) (in_distance i)) in *.
  set (w4 := soil_step i _) in *.
  set (h' := calc_water_height _).
  destruct (store_step_frame d h' (dht_step i w4)) as (_ & _ & _ & _ & S).
  rewrite !S by done.
  apply qle_true in Hdue, Hlo, Hhi.
  unfold dht_step. rewrite T, Hdue, Hdht, Hlo, Hhi. simpl.
  destruct h as [hv|].
  - rewrite reading_set_ne, !reading_set_eq by done. done.
  - rewrite reading_set_eq, reading_set_ne by done. split; [done|].
    unfold reading in *. simpl. exact R2.
Qed.

Lemma maybe_send_first_observation {St Msg : Type} `{EqDecision St}
    (g : AlertGate St) now key (state : St) (msg : Msg) outcome :
  last_state g !! key = None -> last_sent g !! key = None ->
  inject_Z (cooldown_sec g) <= now ->
  snd (maybe_send g now key state msg outcome) = [msg].
Proof.
  intros Hst Hsent Hnow. apply maybe_send_attempt.
  - apply changed_true. now rewrite Hst.
  - apply recently_false. rewrite Hsent. simpl. lra.
Qed.

(** The first time the gate sees a key it notifies, whatever the state: a
    gate that has never seen "water_low" nor "soil_dry" hands two messages
    to Telegram in the first iteration with a valid distance, also when the
    water is fine and the soil is moist ("Water OK again", "Soil MOIST").
    The clock only has to read at least [cooldown_sec], as any epoch clock
    does. *)
Theorem first_iteration_notifies_both_keys i w g d :
  slide_switch_on (in_switch i) = true ->
  alerts w = Some g ->
  last_state g !! "water_low"%string = None ->
  last_sent g !! "water_low"%string = None ->
  last_state g !! "soil_dry"%string = None ->
  last_sent g !! "soil_dry"%string = None ->
  in_distance i = Some d -> 0 < d ->
  inject_Z (cooldown_sec g) <= in_water_now i ->
  inject_Z (cooldown_sec g) <= in_soil_now i ->
  sent_during w (sensors_iteration i w)
    = [ if qlt WATER_LOW_DISTANCE_CM d then WaterLowMsg d else WaterOkMsg;
        if eqb (in_moisture1 i) MOISTURE_IS_DRY_LEVEL
        then SoilDryMsg else SoilMoistMsg ].
Proof.
  intros Hon Hg Hw1 Hw2 Hs1 Hs2 Hd Hpos Hnw Hns.
  rewrite (sensors_iteration_on i w Hon). cbv zeta. rewrite Hd. simpl default.
  set (w2 := snd (ultrasonic_step i _)).
  assert (Hg2 : alerts w2 = Some g /\ telegram_outbox w2 = telegram_outbox w).
  { destruct (ultrasonic_step_frame i (snd (pir_active (in_pir i) w)))
      as (_ & _ & U2 & _ & U4).
    destruct (pir_active_frame (in_pir i) w) as (_ & P2 & _ & P4 & _).
    subst w2. split; congruence. }
  destruct Hg2 as [Hg2 Ho2].
  destruct (water_step_gate i d w2 g Hg2) as (g3 & Hg3 & Hcd & Hst & Hse).
  assert (Ho3 : telegram_outbox (water_step i d w2)
                = telegram_outbox w ++
                  [if qlt WATER_LOW_DISTANCE_CM d
                   then WaterLowMsg d else WaterOkMsg]).
  { unfold water_step.
    assert (E : qlt 0 d = true) by now apply qlt_true.
    rewrite E. unfold alerts_maybe_send.
    destruct (qlt WATER_LOW_DISTANCE_CM d); rewrite Hg2; simpl;
      rewrite maybe_send_first_observation by done; now rewrite Ho2. }
  pose proof (soil_step_gate i (water_step i d w2)) as G. simpl in G.
  rewrite Hg3 in G. destruct G as (_ & _ & G3).
  rewrite maybe_send_first_observation in G3 by congruence.
  destruct (store_step_frame d
              (calc_water_height (if qlt 0 d then d else BEAKER_HEIGHT_CM))
              (dht_step i (soil_step i (water_step i d w2))))
    as (_ & _ & _ & S4 & _).
  destruct (dht_step_frame i (soil_step i (water_step i d w2)))
    as (_ & _ & _ & D4 & _).
  unfold sent_during.
  rewrite S4, D4, G3, Ho3, <- app_assoc, drop_app_length. done.
Qed.

(** *** The store and the motor pin, write by write *)

Lemma run_atoms_app l1 l2 sp :
  run_atoms (l1 ++ l2) sp = run_atoms l2 (run_atoms l1 sp).
Proof. unfold run_atoms. apply foldl_app. Qed.

Lemma dht_step_atoms i w :
  (readings (dht_step i w), motor_pin (dht_step i w))
    = run_atoms (fst (dht_atoms i (last_dht_time w)))
        (readings w, motor_pin w) /\
  last_dht_time (dht_step i w) = snd (dht_atoms i (last_dht_time w)).
Proof.
  unfold dht_step, dht_atoms.
  destruct (qle DHT_PERIOD _); [|done].
  destruct (in_dht i) as [[[h|] [t|]]|]; simpl; try done;
    now destruct (qle TEMP_MIN_C t && qle t TEMP_MAX_C).
Qed.

(** The iteration, seen from the store and the pin, is the run of its
    writes. *)
Lemma iteration_atoms_run i w :
  (readings (sensors_iteration i w), motor_pin (sensors_iteration i w))
    = run_atoms (fst (iteration_atoms i (last_dht_time w)))
        (readings w, motor_pin w) /\
  last_dht_time (sensors_iteration i w)
    = snd (iteration_atoms i (last_dht_time w)).
Proof.
  unfold iteration_atoms.
  destruct (slide_switch_on (in_switch i)) eqn:Hon; simpl negb; cbv iota.
  - rewrite (sensors_iteration_on i w Hon). cbv zeta.
    destruct (before_dht_step i w) as (T & _ & _).
    set (d := default (-1) (in_distance i)) in *.
    set (w3 := water_step i d _) in *.
    set (hgt := calc_water_height _).
    destruct (dht_step_atoms i (soil_step i w3)) as [A1 A2].
    rewrite T in A1, A2.
    assert (Hsoil : (readings (soil_step i w3), motor_pin (soil_step i w3))
              = run_atoms
                  ([StoreWrite "pir_active"
                      (py_bool_int (eqb (in_pir i) PIR_ACTIVE_LEVEL));
                    StoreWrite "soil_dry"
                      (py_bool_int
                         (eqb (in_moisture1 i) MOISTURE_IS_DRY_LEVEL));
                    StoreWrite "soil_dry"
                      (py_bool_int
                         (eqb (in_moisture2 i) MOISTURE_IS_DRY_LEVEL))]
                   ++ motor_atoms
                        (eqb (in_moisture2 i) MOISTURE_IS_DRY_LEVEL))
                  (readings w, motor_pin w)).
    { rewrite soil_step_store, (proj1 (soil_step_motor i w3)).
      subst w3. rewrite (proj1 (water_step_readings _ _ _)).
      rewrite (proj1 (ultrasonic_step_frame _ _)). reflexivity. }
    cbn [fst snd]. split.
    + rewrite app_assoc, run_atoms_app, <- Hsoil, run_atoms_app, <- A1.
      reflexivity.
    + exact A2.
  - unfold sensors_iteration. rewrite Hon. split; reflexivity.
Qed.

Lemma thread_atoms_run inputs : forall w,
  (readings (sensors_thread inputs w), motor_pin (sensors_thread inputs w))
    = run_atoms (thread_atoms inputs (last_dht_time w))
        (readings w, motor_pin w).
Proof.
  induction inputs as [|i inputs IH]; intros w; [done|].
  cbn [sensors_thread thread_atoms].
  destruct (iteration_atoms_run i w) as [H1 H2].
  now rewrite IH, run_atoms_app, H1, H2.
Qed.

Lemma commands_in_turn_app l1 l2 : forall pending,
  commands_in_turn pending l1 -> commands_in_turn None l2 ->
  commands_in_turn pending (l1 ++ l2).
Proof.
  induction l1 as [|a l1 IH]; intros pending H1 H2; simpl in *.
  - now subst pending.
  - destruct a as [level|key v].
    + destruct H1 as [-> H1]. split; [done|]. now apply IH.
    + destruct (String.eqb key "motor_on").
      * destruct H1 as [He H1]. split; [done|]. now apply IH.
      * now apply IH.
Qed.

Lemma iteration_atoms_in_turn i t :
  commands_in_turn None (fst (iteration_atoms i t)).
Proof.
  unfold iteration_atoms, dht_atoms.
  destruct (negb (slide_switch_on (in_switch i))); simpl.
  - split; [done|]. split; [|done]. now exists false.
  - split; [done|]. split.
    { now exists (eqb (in_moisture2 i) MOISTURE_IS_DRY_LEVEL). }
    destruct (qle DHT_PERIOD _); simpl; [|done].
    destruct (in_dht i) as [[[h|] [temp|]]|]; simpl; try done;
      now destruct (qle TEMP_MIN_C temp && qle temp TEMP_MAX_C).
Qed.

Lemma thread_atoms_in_turn inputs : forall t,
  commands_in_turn None (thread_atoms inputs t).
Proof.
  induction inputs as [|i inputs IH]; intros t; [done|].
  cbn [thread_atoms]. apply commands_in_turn_app; [|apply IH].
  apply iteration_atoms_in_turn.
Qed.

Lemma interleave_in_turn l1 l2 h :
  interleave l1 l2 h -> Forall other_write l2 ->
  forall pending, commands_in_turn pending l1 -> commands_in_turn pending h.
Proof.
  induction 1 as [|a l1 l2 h _ IH|a l1 l2 h _ IH]; intros Hother pending H1.
  - done.
  - simpl in *. destruct a as [level|key v].
    + destruct H1 as [-> H1]. split; [done|]. now apply IH.
    + destruct (String.eqb key "motor_on").
      * destruct H1 as [He H1]. split; [done|]. now apply IH.
      * now apply IH.
  - apply Forall_cons in Hother as [Ha Hother].
    destruct a as [level|key v]; [done|].
    simpl in *. apply String.eqb_neq in Ha. rewrite Ha. now apply IH.
Qed.

Lemma commands_in_turn_agree h : forall pending sp,
  commands_in_turn pending h ->
  match pending with
  | None => motor_agrees sp
  | Some level => sp.2 = level
  end ->
  motor_agrees (run_atoms h sp).
Proof.
  unfold run_atoms.
  induction h as [|a h IH]; intros pending sp H Hinv; simpl in *.
  - now subst pending.
  - destruct a as [level|key v].
    + destruct H as [-> H]. now apply (IH (Some level)).
    + destruct (String.eqb key "motor_on") eqn:E.
      * apply String.eqb_eq in E. subst key.
        destruct H as [(level & -> & ->) H].
        apply (IH None); [done|]. unfold motor_agrees. simpl.
        rewrite lookup_insert_eq. now subst level.
      * apply String.eqb_neq in E. apply (IH pending); [done|].
        destruct pending as [level|]; [done|].
        unfold motor_agrees in *. simpl. now rewrite lookup_insert_ne.
Qed.

(** The store and the motor pin under interleaving.  Seen from the store
    and the pin, a run of [sensors_thread] is the run of its atomic writes,
    in which every [motor_on()] / [motor_off()] is a pin write followed by
    a store write.  If the store agreed with the pin before, it agrees with
    it after the run, wherever the writes of other threads to other keys
    fell in between, also between the pin write and the store write of a
    command.  This needs the commands to come from one thread: a
    [motor_on()] and a [motor_off()] of two threads can interleave so that
    the pin is left low while the store says 1. *)
Theorem motor_store_agrees_with_pin inputs w others h :
  (readings (sensors_thread inputs w), motor_pin (sensors_thread inputs w))
    = run_atoms (thread_atoms inputs (last_dht_time w))
        (readings w, motor_pin w) /\
  (motor_agrees (readings w, motor_pin w) ->
   Forall other_write others ->
   interleave (thread_atoms inputs (last_dht_time w)) others h ->
   motor_agrees (run_atoms h (readings w, motor_pin w))) /\
  (exists race,
     interleave (motor_atoms true) (motor_atoms false) race /\
     (run_atoms race (readings w, motor_pin w)).2 = false /\
     (run_atoms race (readings w, motor_pin w)).1 !! "motor_on"%string
       = Some (PyInt 1)).
Proof.
  split; [apply thread_atoms_run|]. split.
  - intros Hinit Hother Hil.
    apply (commands_in_turn_agree h None); [|done].
    eapply interleave_in_turn; [exact Hil|done|].
    apply thread_atoms_in_turn.
  - exists [PinWrite true; PinWrite false;
            StoreWrite "motor_on" (PyInt 0); StoreWrite "motor_on" (PyInt 1)].
    split; [|split].
    + apply interleave_left, interleave_right, interleave_right,
        interleave_left, interleave_nil.
    + reflexivity.
    + simpl. apply lookup_insert_eq.
Qed.

(** ** AlertGate: keys do not interfere *)

Lemma filter_all {A} (P : A -> Prop) `{forall x, Decision (P x)} (l : list A) :
  Forall P l -> filter P l = l.
Proof.
  induction 1 as [|x l Hx _ IH]; [done|].
  rewrite filter_cons_True by done. now rewrite IH.
Qed.

Lemma filter_none {A} (P : A -> Prop) `{forall x, Decision (P x)}
    (l : list A) :
  Forall (fun x => ~ P x) l -> filter P l = [].
Proof.
  induction 1 as [|x l Hx _ IH]; [done|].
  now rewrite filter_cons_False.
Qed.

Section AlertGateRunFacts.
Context {St : Type} `{EqDecision St} {Msg : Type}.
Implicit Types (g : AlertGate St) (c : gate_call St Msg)
  (cs : list (gate_call St Msg)).

Lemma do_call_same_view key g g' c :
  call_key c = key -> gate_view key g = gate_view key g' ->
  gate_view key (fst (do_call g c)) = gate_view key (fst (do_call g' c)) /\
  snd (do_call g c) = snd (do_call g' c).
Proof.
  intros <- [= Hcd Hst Hse].
  unfold do_call, maybe_send, changed, recently, gate_view.
  rewrite Hcd, Hst, Hse.
  destruct (bool_decide _ && negb _); [|simpl; split; congruence].
  destruct (Telegram_send (call_outcome c)); simpl;
    rewrite ?lookup_insert_eq; split; congruence.
Qed.

Lemma do_call_other_view key g c :
  call_key c ≠ key ->
  gate_view key (fst (do_call g c)) = gate_view key g.
Proof.
  intros Hk. unfold gate_view, do_call.
  rewrite maybe_send_cooldown_sec.
  destruct (maybe_send_other_key g (call_now c) (call_key c) (call_state c)
              (call_msg c) (call_outcome c) key) as [-> ->]; [congruence|].
  done.
Qed.

Lemma do_call_sent_key g c :
  Forall (fun km => km.1 = call_key c)
         ((fun m => (call_key c, m)) <$> snd (do_call g c)).
Proof.
  unfold do_call, maybe_send. destruct (_ && _); simpl; repeat constructor.
Qed.

Lemma run_same_view key cs : forall g g',
  gate_view key g = gate_view key g' ->
  gate_view key (run g cs) = gate_view key (run g' (calls_for key cs)) /\
  filter (fun km => km.1 = key) (run_sent g cs)
    = run_sent g' (calls_for key cs).
Proof.
  unfold calls_for.
  induction cs as [|c cs IH]; intros g g' Hv; [done|].
  destruct (decide (call_key c = key)) as [Hk|Hk].
  - rewrite filter_cons_True by done. simpl.
    destruct (do_call_same_view key g g' c Hk Hv) as [Hv' Hs].
    destruct (IH _ _ Hv') as [IH1 IH2].
    split; [done|].
    rewrite filter_app, IH2, Hs. f_equal.
    apply filter_all. rewrite <- Hk. apply do_call_sent_key.
  - rewrite filter_cons_False by done. simpl.
    assert (Hv' : gate_view key (fst (do_call g c)) = gate_view key g').
    { now rewrite do_call_other_view. }
    destruct (IH _ _ Hv') as [IH1 IH2].
    split; [done|].
    rewrite filter_app, IH2, filter_none; [done|].
    eapply Forall_impl; [apply do_call_sent_key|].
    simpl. intros km ->. done.
Qed.

(** The gate treats its keys independently.  What a run leaves under one
    key, and which messages it sends for that key, is what the calls made
    for that key alone would have left and sent: calls for other keys,
    however many and whenever, change nothing about it. *)
Theorem gate_keys_are_independent key g cs :
  gate_view key (run g cs) = gate_view key (run g (calls_for key cs)) /\
  filter (fun km => km.1 = key) (run_sent g cs)
    = run_sent g (calls_for key cs).
Proof. now apply run_same_view. Qed.

(** A send that Telegram does not take is lost, and starts no cooldown.
    The state is recorded all the same, so no later call with that state
    sends; [last_sent] is not touched, so the next call with another state
    sends at once. *)
Theorem failed_send_is_lost_and_starts_no_cooldown
    g now1 now2 key (s1 s2 : St) (msg1 msg2 : Msg) out1 out2 :
  changed g key s1 = true -> recently g now1 key = false ->
  Telegram_send out1 = false ->
  let g1 := fst (maybe_send g now1 key s1 msg1 out1) in
  snd (maybe_send g now1 key s1 msg1 out1) = [msg1] /\
  last_sent g1 !! key = last_sent g !! key /\
  (forall now' (msg' : Msg) out',
     snd (maybe_send g1 now' key s1 msg' out') = []) /\
  (s2 ≠ s1 -> now1 <= now2 ->
     snd (maybe_send g1 now2 key s2 msg2 out2) = [msg2]).
Proof.
  intros Hc Hr Hfail g1.
  destruct (maybe_send_attempt g now1 key s1 msg1 out1 Hc Hr)
    as (A1 & A2 & A3).
  rewrite Hfail in A3. fold g1 in A2, A3.
  split; [done|]. split; [done|]. split.
  - intros now' msg' out'. rewrite maybe_send_skip; [done|].
    apply andb_false_iff. left. now apply changed_false.
  - intros Hne Hlater. apply maybe_send_attempt.
    + apply changed_true. rewrite A2. congruence.
    + apply recently_false. apply recently_false in Hr.
      rewrite A3. unfold g1. rewrite maybe_send_cooldown_sec. lra.
Qed.

End AlertGateRunFacts.

(** ** ThingSpeakClient.push: the request parameters *)

Lemma field_name_inj i j : field_name i = field_name j -> i = j.
Proof.
  unfold field_name. intros H.
  apply (inj (String.app "field")) in H.
  now apply (inj (pretty (A:=nat))) in H.
Qed.

Lemma field_name_not_api_key i : field_name i ≠ "api_key"%string.
Proof.
  unfold field_name. intros E.
  apply (f_equal (fun s => match s with
                           | String a _ => Some a
                           | EmptyString => None
                           end)) in E.
  lazy [String.append] in E. discriminate.
Qed.

(** The value a keyword argument contributes: itself, unless it is absent
    or [None]. *)
Lemma fill_payload_other fields keys : forall idx p name,
  (forall j, (j < length keys)%nat -> name ≠ field_name (idx + j)) ->
  fill_payload idx keys fields p !! name = p !! name.
Proof.
  induction keys as [|key keys IH]; intros idx p name Hname; simpl; [done|].
  rewrite IH.
  - assert (Hne : field_name idx ≠ name).
    { intros E. apply (Hname 0%nat); [simpl; lia|].
      now rewrite Nat.add_0_r. }
    destruct (fields !! key) as [v|]; [|done].
    destruct (is_not_None v); [|done]. now rewrite lookup_insert_ne.
  - intros j Hj. replace (S idx + j)%nat with (idx + S j)%nat by lia.
    apply Hname. simpl. lia.
Qed.

Lemma fill_payload_slot fields keys : forall idx p j key,
  keys !! j = Some key ->
  fill_payload idx keys fields p !! field_name (idx + j)
    = match fields !! key with
      | Some v => if is_not_None v then Some v
                  else p !! field_name (idx + j)
      | None => p !! field_name (idx + j)
      end.
Proof.
  induction keys as [|k keys IH]; intros idx p j key Hj; [done|].
  destruct j as [|j]; simpl in *.
  - injection Hj as ->. rewrite Nat.add_0_r.
    rewrite fill_payload_other.
    + destruct (fields !! key) as [v|]; [|done].
      destruct (is_not_None v); [|done]. apply lookup_insert_eq.
    + intros j _ E. apply field_name_inj in E. lia.
  - replace (idx + S j)%nat with (S idx + j)%nat by lia.
    rewrite (IH (S idx) _ j key Hj).
    assert (Hne : field_name idx ≠ field_name (S idx + j)).
    { intros E. apply field_name_inj in E. lia. }
    assert (Hp : forall q : gmap string pyval,
              (match fields !! k with
               | Some v => if is_not_None v
                           then <[field_name idx := v]> q else q
               | None => q
               end) !! field_name (S idx + j) = q !! field_name (S idx + j)).
    { intros q. destruct (fields !! k) as [v|]; [|done].
      destruct (is_not_None v); [|done]. now rewrite lookup_insert_ne. }
    now rewrite Hp.
Qed.

Lemma fill_payload_agree f1 f2 keys : forall idx p,
  (forall key, key ∈ keys -> f1 !! key = f2 !! key) ->
  fill_payload idx keys f1 p = fill_payload idx keys f2 p.
Proof.
  induction keys as [|k keys IH]; intros idx p H; simpl; [done|].
  rewrite (H k) by (now left).
  apply IH. intros key Hk. apply H. now right.
Qed.

Lemma payload_slots_aux c fields :
  build_payload c fields !! "api_key"%string = Some (PyStr (write_key c)) /\
  (forall j key, mapping !! j = Some key ->
     build_payload c fields !! field_name (S j)
       = match fields !! key with
         | Some v => if is_not_None v then Some v else None
         | None => None
         end) /\
  (forall name, name ≠ "api_key"%string ->
     (forall j, (j < 8)%nat -> name ≠ field_name (S j)) ->
     build_payload c fields !! name = None).
Proof.
  unfold build_payload. split; [|split].
  - rewrite fill_payload_other; [apply lookup_singleton_eq|].
    intros j _ E. now apply (field_name_not_api_key (1 + j)).
  - intros j key Hj.
    rewrite (fill_payload_slot fields mapping 1 _ j key Hj).
    assert (Hp : ({[ "api_key"%string := PyStr (write_key c) ]}
                    : gmap string pyval) !! field_name (1 + j) = None).
    { apply lookup_singleton_ne. intros E.
      now apply (field_name_not_api_key (1 + j)). }
    rewrite Hp. destruct (fields !! key) as [v|]; [|done].
    now destruct (is_not_None v).
  - intros name Hname Hslots. rewrite fill_payload_other.
    + now apply lookup_singleton_ne.
    + intros j Hj. apply Hslots. exact Hj.
Qed.

(** The parameters of a request.  "api_key" is always the write key.  The
    j-th name of [mapping] (counted from 0) fills "field(j+1)" with the
    keyword argument of that name, and the slot is left out, not filled
    with a zero, when the argument is absent or [None].  No other parameter
    is ever sent. *)
Theorem payload_slots c fields :
  build_payload c fields !! "api_key"%string = Some (PyStr (write_key c)) /\
  (forall j key, mapping !! j = Some key ->
     build_payload c fields !! field_name (S j)
       = match fields !! key with
         | Some v => if is_not_None v then Some v else None
         | None => None
         end) /\
  (forall name, name ≠ "api_key"%string ->
     (forall j, (j < 8)%nat -> name ≠ field_name (S j)) ->
     build_payload c fields !! name = None).
Proof. apply payload_slots_aux. Qed.

(** Keyword arguments whose names are not in [mapping] are dropped without
    notice: two calls that agree on the eight mapped names send the same
    parameters. *)
Theorem payload_ignores_unmapped_arguments c f1 f2 :
  (forall key, key ∈ mapping -> f1 !! key = f2 !! key) ->
  build_payload c f1 = build_payload c f2.
Proof. intros H. unfold build_payload. now apply fill_payload_agree. Qed.

(** What the telemetry thread sends.  Whatever the threads have done, a
    request built from the store always carries a "field7", which is 0 or 1
    (the stored "motor_on" is never unset), and never a "field8": the store
    has no "reserved" entry. *)
Theorem telemetry_of_the_store os gate c :
  let w := apply_ops os (World_init gate) in
  (build_payload c (readings w) !! "field7"%string = Some (PyInt 0) \/
   build_payload c (readings w) !! "field7"%string = Some (PyInt 1)) /\
  build_payload c (readings w) !! "field8"%string = None.
Proof.
  intros w.
  destruct (payload_slots_aux c (readings w)) as (_ & Hslot & _).
  assert (Hs : store_schema (readings w)).
  { apply apply_ops_schema. apply store_schema_init. }
  destruct Hs as [Hdom Hty].
  split.
  - change "field7"%string with (field_name 7).
    rewrite (Hslot 6%nat "motor_on"%string eq_refl).
    assert (Hm : is_Some (readings w !! "motor_on"%string)).
    { apply elem_of_dom. rewrite Hdom. rewrite elem_of_dom.
      vm_compute. eauto. }
    destruct Hm as [v Hv]. rewrite Hv.
    destruct (Hty _ _ Hv) as [-> | ->]; auto.
  - change "field8"%string with (field_name 8).
    rewrite (Hslot 7%nat "reserved"%string eq_refl).
    assert (Hr : readings w !! "reserved"%string = None).
    { apply not_elem_of_dom. rewrite Hdom.
      rewrite elem_of_dom. vm_compute. intros [x Hx]. discriminate. }
    now rewrite Hr.
Qed.

(** ** main.py: keypad_scanner_thread *)

Lemma scan_list_app inp active l1 l2 : forall st,
  scan_list inp active (l1 ++ l2) st
    = scan_list inp active l1 st ≫= scan_list inp active l2.
Proof.
  induction l1 as [|rc l1 IH]; intros st; simpl; [done|].
  destruct (scan_cell inp active rc.1 rc.2 st) as [st'|]; simpl; [|done].
  apply IH.
Qed.

Lemma scan_rows_scan_list inp active c rows : forall st,
  scan_rows inp active c rows st
    = scan_list inp active ((fun r => (r, c)) <$> rows) st.
Proof.
  induction rows as [|r rows IH]; intros st; simpl; [done|].
  destruct (scan_cell inp active r c st) as [st'|]; simpl; [|done].
  apply IH.
Qed.

Lemma scan_cols_scan_list_gen inp active cols : forall st,
  scan_cols inp active cols st
    = scan_list inp active
        (c ← cols; (fun r => (r, c)) <$> KEYPAD_ROW_IDX) st.
Proof.
  induction cols as [|c cols IH]; intros st; [done|].
  change (c ← c :: cols; (fun r => (r, c)) <$> KEYPAD_ROW_IDX)
    with (((fun r => (r, c)) <$> KEYPAD_ROW_IDX) ++
          (c ← cols; (fun r => (r, c)) <$> KEYPAD_ROW_IDX)).
  rewrite scan_list_app, <- scan_rows_scan_list.
  change (scan_cols inp active (c :: cols) st)
    with (scan_rows inp active c KEYPAD_ROW_IDX st
            ≫= scan_cols inp active cols).
  destruct (scan_rows inp active c KEYPAD_ROW_IDX st) as [st'|]; [|done].
  apply IH.
Qed.

Lemma scan_cols_scan_list inp active st :
  scan_cols inp active KEYPAD_COL_IDX st
    = scan_list inp active scan_order st.
Proof. apply scan_cols_scan_list_gen. Qed.

Lemma scan_cell_in_range inp active ks w rc :
  cell_in_range ks rc ->
  scan_cell inp active rc.1 rc.2 (ks, w)
    = Some (set_cell ks rc (pressed_now inp rc.1 rc.2),
            scan_effect ks inp active w rc).
Proof.
  intros [Hks Hlay]. unfold scan_cell, set_cell, scan_effect, rising_edge,
    last_pressed, dispatch, key_of.
  destruct (ks !! rc.1) as [row|]; simpl in *; [|by destruct Hks].
  destruct (row !! rc.2) as [b|]; simpl in *; [|by destruct Hks].
  destruct (KEYPAD_LAYOUT !! rc.1) as [lrow|]; simpl in *;
    [|by destruct Hlay].
  destruct (lrow !! rc.2) as [key|]; simpl in *; [|by destruct Hlay].
  now destruct (pressed_now inp rc.1 rc.2 && negb b).
Qed.

Lemma last_pressed_set_cell_ne ks rc rc' v :
  rc ≠ rc' ->
  last_pressed (set_cell ks rc v) rc'.1 rc'.2 = last_pressed ks rc'.1 rc'.2.
Proof.
  intros Hne. unfold last_pressed, set_cell.
  destruct rc as [r c], rc' as [r' c']. simpl.
  destruct (ks !! r) as [row|] eqn:Er; [|done].
  destruct (decide (r = r')) as [<-|Hr].
  - rewrite list_lookup_insert_eq by (now apply lookup_lt_Some in Er).
    rewrite Er. simpl.
    rewrite list_lookup_insert_ne by congruence. done.
  - now rewrite list_lookup_insert_ne.
Qed.

Lemma cell_in_range_set_cell ks rc rc' v :
  cell_in_range ks rc' -> cell_in_range (set_cell ks rc v) rc'.
Proof.
  intros [Hks Hlay]. split; [|done].
  unfold set_cell. destruct rc as [r c], rc' as [r' c']. simpl in *.
  destruct (ks !! r) as [row|] eqn:Er; [|done].
  destruct (decide (r = r')) as [<-|Hr].
  - rewrite list_lookup_insert_eq by (now apply lookup_lt_Some in Er).
    rewrite Er in Hks. simpl in *.
    destruct Hks as [b Hb]. apply lookup_lt_Some in Hb.
    apply lookup_lt_is_Some. now rewrite length_insert.
  - now rewrite list_lookup_insert_ne.
Qed.

Lemma foldl_scan_effect_set_cell ks rc v inp active cells :
  rc ∉ cells -> forall w,
  foldl (scan_effect (set_cell ks rc v) inp active) w cells
    = foldl (scan_effect ks inp active) w cells.
Proof.
  induction cells as [|rc' cells IH]; intros Hrc w; [done|].
  apply not_elem_of_cons in Hrc as [Hne Hrc].
  cbn [foldl]. rewrite IH by done. f_equal.
  unfold scan_effect, rising_edge.
  now rewrite last_pressed_set_cell_ne.
Qed.

Lemma scan_list_in_range inp active cells : forall ks w,
  NoDup cells -> Forall (cell_in_range ks) cells ->
  scan_list inp active cells (ks, w)
    = Some (mark_cells inp cells ks,
            foldl (scan_effect ks inp active) w cells).
Proof.
  induction cells as [|rc cells IH]; intros ks w Hnd Hin; [done|].
  apply NoDup_cons in Hnd as [Hrc Hnd].
  apply Forall_cons in Hin as [Hin1 Hin].
  cbn [scan_list]. rewrite scan_cell_in_range by done.
  cbn [mbind option_bind]. rewrite IH; [|done|].
  - f_equal. f_equal. cbn [foldl].
    now apply foldl_scan_effect_set_cell.
  - eapply Forall_impl; [exact Hin|].
    intros rc'. apply cell_in_range_set_cell.
Qed.

Lemma scan_order_NoDup : NoDup scan_order.
Proof. apply (bool_decide_unpack (NoDup scan_order)). vm_compute. exact I. Qed.

Lemma matrix_shape_cells inp ks :
  matrix_shape ks ->
  Forall (cell_in_range ks) scan_order /\
  mark_cells inp scan_order ks = pressed_matrix inp.
Proof.
  intros [Hlen Hrows].
  destruct ks as [|r0 [|r1 [|r2 [|r3 [|]]]]]; try discriminate.
  apply Forall_cons in Hrows as [H0 Hrows].
  apply Forall_cons in Hrows as [H1 Hrows].
  apply Forall_cons in Hrows as [H2 Hrows].
  apply Forall_cons in Hrows as [H3 _].
  destruct r0 as [|? [|? [|? [|]]]]; try discriminate.
  destruct r1 as [|? [|? [|? [|]]]]; try discriminate.
  destruct r2 as [|? [|? [|? [|]]]]; try discriminate.
  destruct r3 as [|? [|? [|? [|]]]]; try discriminate.
  split; [|reflexivity].
  repeat constructor; simpl; eauto.
Qed.

Lemma pressed_matrix_shape inp : matrix_shape (pressed_matrix inp).
Proof. split; [reflexivity|]. repeat constructor. Qed.

Lemma pressed_matrix_lookup inp :
  Forall (fun rc => last_pressed (pressed_matrix inp) rc.1 rc.2
                    = pressed_now inp rc.1 rc.2) scan_order.
Proof. repeat constructor. Qed.

Lemma foldl_scan_effect ks inp active cells : forall w,
  foldl (scan_effect ks inp active) w cells
    = if active
      then foldl (fun w rc => dispatch inp rc w) w
             (filter (fun rc => rising_edge ks inp rc = true) cells)
      else w.
Proof.
  induction cells as [|rc cells IH]; intros w; [now destruct active|].
  cbn [foldl]. rewrite IH. unfold scan_effect.
  destruct active; [|now destruct (rising_edge ks inp rc)].
  destruct (rising_edge ks inp rc) eqn:E.
  - now rewrite filter_cons_True.
  - rewrite filter_cons_False; [done|]. now rewrite E.
Qed.

Lemma keypad_scan_spec inp ks w :
  matrix_shape ks ->
  keypad_scan inp (ks, w)
    = Some (pressed_matrix inp,
            let w1 := snd (pir_active (sc_pir inp) w) in
            if eqb (sc_pir inp) PIR_ACTIVE_LEVEL
            then foldl (fun w rc => dispatch inp rc w) w1
                   (filter (fun rc => rising_edge ks inp rc = true)
                           scan_order)
            else w1).
Proof.
  intros Hshape. destruct (matrix_shape_cells inp ks Hshape) as [Hin Hmark].
  unfold keypad_scan, pir_active. rewrite scan_cols_scan_list.
  rewrite scan_list_in_range by (done || apply scan_order_NoDup).
  now rewrite Hmark, foldl_scan_effect.
Qed.

(** One pass of the keypad scanner over a four-by-three matrix never runs
    out of the matrix.  It leaves in [keypad_last_state] exactly the presses
    it saw, and it calls [handle_keypress] for the keys that are down now
    and were not down in the previous pass, column by column, and only if
    presence was active when the pass began; otherwise the presses are
    swallowed. *)
Theorem keypad_scan_dispatches_rising_edges inp ks w :
  matrix_shape ks ->
  keypad_scan inp (ks, w)
    = Some (pressed_matrix inp,
            let w1 := snd (pir_active (sc_pir inp) w) in
            if eqb (sc_pir inp) PIR_ACTIVE_LEVEL
            then foldl (fun w rc => dispatch inp rc w) w1
                   (filter (fun rc => rising_edge ks inp rc = true)
                           scan_order)
            else w1).
Proof. apply keypad_scan_spec. Qed.

(** A key is handled at most once per press.  If every key that is down in
    a pass was already down in the pass before, the second pass dispatches
    nothing, whether the first pass handled the key or swallowed it because
    nobody was present: a key pressed in the absence of presence is not
    handled later, when presence returns while it is still held. *)
Theorem held_key_is_not_dispatched_again inp1 inp2 ks w :
  matrix_shape ks ->
  (forall r c, pressed_now inp2 r c = true -> pressed_now inp1 r c = true) ->
  exists w1,
    keypad_scan inp1 (ks, w) = Some (pressed_matrix inp1, w1) /\
    keypad_scan inp2 (pressed_matrix inp1, w1)
      = Some (pressed_matrix inp2, snd (pir_active (sc_pir inp2) w1)).
Proof.
  intros Hshape Hheld.
  assert (Hf : filter (fun rc => rising_edge (pressed_matrix inp1) inp2 rc
                                 = true) scan_order = []).
  { apply filter_none.
    eapply Forall_impl; [apply (pressed_matrix_lookup inp1)|].
    intros rc Hrc. unfold rising_edge. rewrite Hrc.
    destruct (pressed_now inp2 rc.1 rc.2) eqn:E; [|done].
    now rewrite (Hheld _ _ E). }
  eexists. split; [now apply keypad_scan_spec|].
  rewrite keypad_scan_spec by apply pressed_matrix_shape.
  rewrite Hf. now destruct (eqb (sc_pir inp2) PIR_ACTIVE_LEVEL).
Qed.

(** ** TelegramBotThread *)

Lemma handle_update_offset b us :
  _offset (handle_update b us) = Z.max (_offset b) (update_id us.1 + 1).
Proof.
  destruct us as [upd status]. unfold handle_update, bot_send. simpl.
  destruct (negb _); [done|].
  destruct (_ || _); [done|].
  repeat (destruct (String.eqb (upd_text upd) _); [done|]). done.
Qed.

Lemma handle_update_chat_id b us :
  bot_chat_id (handle_update b us) = bot_chat_id b.
Proof.
  destruct us as [upd status]. unfold handle_update, bot_send. simpl.
  destruct (negb _); [done|].
  destruct (_ || _); [done|].
  repeat (destruct (String.eqb (upd_text upd) _); [done|]). done.
Qed.

Lemma handle_update_other_chat b us :
  upd_chat_id us.1 ≠ bot_chat_id b ->
  bot_sent (handle_update b us) = bot_sent b.
Proof.
  destruct us as [upd status]. simpl. intros H.
  apply String.eqb_neq in H. unfold handle_update. now rewrite H.
Qed.

Lemma foldl_handle_update_offset ups : forall b,
  (_offset b <= _offset (foldl handle_update b ups))%Z /\
  Forall (fun us => (update_id us.1 < _offset (foldl handle_update b ups))%Z)
         ups.
Proof.
  induction ups as [|us ups IH]; intros b; simpl; [split; [lia|constructor]|].
  destruct (IH (handle_update b us)) as [IH1 IH2].
  rewrite handle_update_offset in IH1.
  split; [lia|]. constructor; [lia|done].
Qed.

(** The bot's offset never moves backwards, and after a poll it lies beyond
    the id of every update of that poll, from whatever chat: asked again
    with this offset, Telegram returns none of them a second time. *)
Theorem bot_offset_moves_past_every_update b ps :
  (_offset b <= _offset (bot_run b ps))%Z /\
  forall p us, p ∈ ps -> us ∈ poll_updates p ->
    (update_id us.1 < _offset (bot_run b ps))%Z.
Proof.
  unfold bot_run. revert b.
  induction ps as [|p ps IH]; intros b.
  - split; [simpl; lia|]. intros p us Hp. by apply elem_of_nil in Hp.
  - destruct (IH (bot_poll b p)) as [IH1 IH2]. cbn [foldl].
    assert (Hp : (_offset b <= _offset (bot_poll b p))%Z /\
                 Forall (fun us => (update_id us.1
                                    < _offset (bot_poll b p))%Z)
                        (poll_updates p)).
    { destruct p as [| |ups]; simpl; try (split; [lia|constructor]).
      apply foldl_handle_update_offset. }
    destruct Hp as [Hp1 Hp2].
    split; [lia|]. intros q us Hq Hus.
    apply elem_of_cons in Hq as [->|Hq]; [|now apply (IH2 q)].
    rewrite Forall_forall in Hp2. specialize (Hp2 us Hus). lia.
Qed.

Lemma foldl_handle_update_sent ups : forall b b',
  bot_chat_id b = bot_chat_id b' -> bot_sent b = bot_sent b' ->
  bot_sent (foldl handle_update b ups)
    = bot_sent (foldl handle_update b'
                  (filter (fun us => upd_chat_id us.1 = bot_chat_id b') ups)).
Proof.
  induction ups as [|us ups IH]; intros b b' Hc Hs; [done|].
  cbn [foldl].
  destruct (decide (upd_chat_id us.1 = bot_chat_id b')) as [Hown|Hother].
  - rewrite filter_cons_True by done. cbn [foldl].
    assert (Hc' : bot_chat_id (handle_update b us)
                  = bot_chat_id (handle_update b' us)).
    { now rewrite !handle_update_chat_id. }
    rewrite (IH _ (handle_update b' us) Hc').
    + now rewrite handle_update_chat_id.
    + destruct us as [upd status]. unfold handle_update, bot_send. simpl.
      rewrite Hc, Hs. destruct (negb _); [done|].
      destruct (_ || _); [done|].
      repeat (destruct (String.eqb (upd_text upd) _); [done|]). done.
  - rewrite filter_cons_False by done.
    apply IH.
    + now rewrite handle_update_chat_id.
    + rewrite handle_update_other_chat; [done|]. congruence.
Qed.

(** The bot answers its own chat only.  The replies of a poll are those the
    updates of the configured chat alone would have drawn; updates from any
    other chat draw none, whatever their text (they still move the
    offset). *)
Theorem bot_answers_only_its_own_chat b ups :
  bot_sent (bot_poll b (PollOk ups))
    = bot_sent (bot_poll b
                  (PollOk (filter (fun us => upd_chat_id us.1 = bot_chat_id b)
                                  ups))) /\
  (Forall (fun us => upd_chat_id us.1 ≠ bot_chat_id b) ups ->
   bot_sent (bot_poll b (PollOk ups)) = bot_sent b).
Proof.
  split.
  - simpl. now apply foldl_handle_update_sent.
  - intros Hall. simpl.
    rewrite (foldl_handle_update_sent ups b b eq_refl eq_refl).
    now rewrite filter_none.
Qed.

(** ** motionDetection.py *)

Lemma motion_loop_step_invariant s i :
  motion_invariant s -> motion_invariant (motion_loop_step s i).
Proof.
  intros (H1 & H2 & H3 & H4).
  unfold motion_loop_step, motion_step, button_step, motion_invariant.
  destruct s as [ps kl me lb bz ld pc]. simpl in *. subst ld.
  destruct (mi_button i && negb lb), me, (mi_pir i); simpl;
    destruct H3 as [-> | ->]; simpl;
    destruct (String.eqb (mi_system_state i) "enabled"), kl; simpl;
    subst pc; intuition (try discriminate; try lia; auto).
Qed.

Lemma motion_loop_invariant inputs : forall s,
  motion_invariant s -> motion_invariant (motion_loop s inputs).
Proof.
  unfold motion_loop.
  induction inputs as [|i inputs IH]; intros s H; [done|].
  cbn [foldl]. now apply IH, motion_loop_step_invariant.
Qed.

(** However the button, the PIR sensor and the state file behave, the buzzer
    and the LED are always switched together, and they are never on outside
    a motion episode nor while motion detection is disabled by the
    button. *)
Theorem alarm_only_during_enabled_motion s inputs :
  motion_invariant s ->
  let s' := motion_loop s inputs in
  buzzer s' = led s' /\
  (buzzer s' = true -> PIR_state s' = 1%Z /\ motion_enabled s' = true).
Proof.
  intros H s'.
  destruct (motion_loop_invariant inputs s H) as (H1 & H2 & _). done.
Qed.

(** keypad_control.py is started at most once, at the first motion onset
    seen while detection is enabled, however many onsets follow. *)
Theorem keypad_script_started_at_most_once inputs :
  let s' := motion_loop MotionState_init inputs in
  (popen_calls s' <= 1)%nat /\
  (popen_calls s' = 1%nat <-> keypad_launched s' = true).
Proof.
  intros s'.
  assert (H : motion_invariant MotionState_init).
  { repeat split; auto. discriminate. }
  destruct (motion_loop_invariant inputs _ H) as (_ & _ & _ & H4).
  fold s' in H4. rewrite H4.
  destruct (keypad_launched s'); split; try lia; split; auto; discriminate.
Qed.

(** The state file is looked at only at the onset of motion.  During an
    episode ([PIR_state = 1], detection enabled), as long as the PIR stays
    high and the button is not pressed, nothing changes whatever the file
    says: an alarm that is sounding is not silenced by "disabled", and one
    that was suppressed at the onset is not started by "enabled". *)
Theorem state_file_is_latched_at_motion_onset s inputs :
  PIR_state s = 1%Z -> motion_enabled s = true ->
  last_button_state s = false ->
  Forall (fun i => mi_pir i = true /\ mi_button i = false) inputs ->
  motion_loop s inputs = s.
Proof.
  intros Hp He Hb Hall. unfold motion_loop.
  induction Hall as [|i inputs [Hpir Hbut] _ IH]; [done|].
  cbn [foldl].
  assert (Hs : motion_loop_step s i = s).
  { unfold motion_loop_step, motion_step, button_step.
    destruct s as [ps kl me lb bz ld pc]. simpl in *. subst.
    rewrite Hpir, Hbut. reflexivity. }
  now rewrite Hs.
Qed.

(** ** keypad.py *)

(** A pass of keypad.py never runs out of [MATRIX], and only two keys reach
    the state file: with "#" down the file ends up saying "enabled", else
    with "*" down "disabled", else it is left as it was.  The digits never
    touch it, and "#" wins over "*" when both are down, since its column is
    scanned last. *)
Theorem keypad_py_writes_only_hash_and_star level file :
  keypad_py_pass level file
    = Some (if eqb (level 3 2)%nat false then Some "enabled"%string
            else if eqb (level 3 0)%nat false then Some "disabled"%string
            else file).
Proof.
  unfold keypad_py_pass. simpl. unfold keypad_py_cell.
  repeat match goal with
         | |- context [level ?j ?i] => destruct (level j i); simpl
         end; reflexivity.
Qed.

(** ** Further properties: concrete runs *)

Lemma alerts_never_steer_control_witness :
  control_state
    (sensors_thread [iteration_at 1000 (Some 4) true None]
       (World_init (Some gate0)))
  = control_state
      (sensors_thread [telegram_down (iteration_at 1000 (Some 4) true None)]
         (World_init None)).
Proof.
  apply alerts_never_steer_control; [|reflexivity].
  repeat constructor.
Defined.

Lemma handle_keypress_footprint_witness :
  handle_keypress "5" (Some 4) None world_dry_4cm = world_dry_4cm /\
  handle_keypress "1" (Some 0) None world_dry_4cm = world_dry_4cm /\
  handle_keypress "2" None (Some (Some 40, Some 150)) world_dry_4cm
    = world_dry_4cm.
Proof.
  split; [|split].
  - destruct (handle_keypress_footprint "5" (Some 4) None world_dry_4cm)
      as (_ & _ & _ & _ & H & _).
    apply H; discriminate.
  - destruct (handle_keypress_footprint "1" (Some 0) None world_dry_4cm)
      as (_ & _ & _ & _ & _ & H & _).
    apply H; [reflexivity|]. intros d [= <-]. vm_compute. discriminate.
  - destruct (handle_keypress_footprint "2" None
                (Some (Some 40, Some 150)) world_dry_4cm)
      as (_ & _ & _ & _ & _ & _ & H).
    apply H; [reflexivity|]. right. reflexivity.
Defined.

Lemma store_schema_invariant_witness :
  is_Some (reading "temp_c"
             (apply_ops [OpKeypress "1" (Some 4) None;
                         OpIteration (iteration_at 1000 None true None)]
                (World_init None))).
Proof.
  apply (store_schema_invariant
           [OpKeypress "1" (Some 4) None;
            OpIteration (iteration_at 1000 None true None)] None).
  rewrite elem_of_dom. vm_compute. eauto.
Defined.

Lemma switch_off_only_stops_motor_witness :
  sensors_thread [switch_off_at 1001; switch_off_at 1002] world_dry_4cm
    = motor_off world_dry_4cm.
Proof.
  apply (switch_off_only_stops_motor
           [switch_off_at 1001; switch_off_at 1002] world_dry_4cm).
  - discriminate.
  - repeat constructor.
Defined.

Lemma valid_distance_is_stored_and_signalled_witness :
  reading "distance_cm"
    (sensors_iteration (iteration_at 1001 (Some 7) true None) world_dry_4cm)
    = Some (PyFloat 7) /\
  head (signalled_during world_dry_4cm
          (sensors_iteration (iteration_at 1001 (Some 7) true None)
             world_dry_4cm))
    = Some ("water_low"%string, false).
Proof.
  destruct (valid_distance_is_stored_and_signalled
              (iteration_at 1001 (Some 7) true None) world_dry_4cm 7)
    as (H1 & _ & H3); [reflexivity|reflexivity|reflexivity|].
  split; [exact H1|].
  apply (H3 (gate_of world_dry_4cm)); [reflexivity|].
  vm_compute. discriminate.
Defined.

Lemma soil_alert_first_read_motor_second_read_witness :
  motor_pin (sensors_iteration (flicker_at 1000) (World_init (Some gate0)))
    = false /\
  last (signalled_during (World_init (Some gate0))
          (sensors_iteration (flicker_at 1000) (World_init (Some gate0))))
    = Some ("soil_dry"%string, true).
Proof.
  destruct (soil_alert_first_read_motor_second_read (flicker_at 1000)
              (World_init (Some gate0)) gate0)
    as (H1 & _ & _ & H4 & _); [reflexivity|reflexivity|].
  split; [exact H1 | exact H4].
Defined.

Lemma dht_refresh_cadence_witness :
  reading "temp_c"
    (sensors_iteration
       (iteration_at 1003 (Some 4) true (Some (Some 41, Some 26)))
       world_dry_4cm)
    = reading "temp_c" world_dry_4cm /\
  last_dht_time
    (sensors_iteration (iteration_at 1005 (Some 4) true None) world_dry_4cm)
    = 1005.
Proof.
  split.
  - destruct (dht_refresh_cadence
                (iteration_at 1003 (Some 4) true (Some (Some 41, Some 26)))
                world_dry_4cm) as (H & _); [reflexivity|].
    apply H. reflexivity.
  - destruct (dht_refresh_cadence
                (iteration_at 1005 (Some 4) true None) world_dry_4cm)
      as (_ & H); [reflexivity|].
    apply H. vm_compute. discriminate.
Defined.

Lemma dht_valid_read_updates_store_witness :
  reading "temp_c"
    (sensors_iteration (iteration_at 1005 (Some 4) true (Some (None, Some 26)))
       world_dry_4cm) = Some (PyFloat 26) /\
  reading "humidity"
    (sensors_iteration (iteration_at 1005 (Some 4) true (Some (None, Some 26)))
       world_dry_4cm) = reading "humidity" world_dry_4cm.
Proof.
  apply (dht_valid_read_updates_store
           (iteration_at 1005 (Some 4) true (Some (None, Some 26)))
           world_dry_4cm None 26);
    try reflexivity; vm_compute; discriminate.
Defined.

Lemma first_iteration_notifies_both_keys_witness :
  sent_during (World_init (Some gate0))
    (sensors_iteration (iteration_at 1000 (Some 4) false None)
       (World_init (Some gate0)))
    = [WaterOkMsg; SoilMoistMsg].
Proof.
  apply (first_iteration_notifies_both_keys
           (iteration_at 1000 (Some 4) false None)
           (World_init (Some gate0)) gate0 4);
    try reflexivity; vm_compute; discriminate.
Defined.

Lemma failed_send_witness :
  snd (maybe_send
         (fst (maybe_send gate0 100 "soil_dry" true SoilDryMsg
                 RequestException))
         101 "soil_dry" false SoilMoistMsg (Response 200 true))
    = [SoilMoistMsg].
Proof.
  destruct (failed_send_is_lost_and_starts_no_cooldown gate0 100 101
              "soil_dry" true false SoilDryMsg SoilMoistMsg
              RequestException (Response 200 true))
    as (_ & _ & _ & H); [reflexivity|reflexivity|reflexivity|].
  apply H; [discriminate|]. vm_compute. discriminate.
Defined.

Lemma payload_slots_witness :
  build_payload (ThingSpeakClient_new "KEY") (readings world_dry_4cm)
    !! "field3"%string = Some (PyFloat 6) /\
  build_payload (ThingSpeakClient_new "KEY") readings_init
    !! "field3"%string = None /\
  build_payload (ThingSpeakClient_new "KEY") (readings world_dry_4cm)
    !! "motor_on"%string = None.
Proof.
  split; [|split].
  - destruct (payload_slots (ThingSpeakClient_new "KEY")
                (readings world_dry_4cm)) as (_ & H & _).
    apply (H 2%nat "water_height"%string). reflexivity.
  - destruct (payload_slots (ThingSpeakClient_new "KEY") readings_init)
      as (_ & H & _).
    apply (H 2%nat "water_height"%string). reflexivity.
  - destruct (payload_slots (ThingSpeakClient_new "KEY")
                (readings world_dry_4cm)) as (_ & _ & H).
    apply H; [discriminate|].
    intros j Hj. do 8 (destruct j as [|j]; [vm_compute; discriminate|]).
    lia.
Defined.

Lemma payload_ignores_unmapped_arguments_witness :
  build_payload (ThingSpeakClient_new "KEY")
    (<["uptime"%string := PyInt 99]> readings_init)
  = build_payload (ThingSpeakClient_new "KEY") readings_init.
Proof.
  apply payload_ignores_unmapped_arguments.
  intros key Hkey. apply lookup_insert_ne.
  intros <-. vm_compute in Hkey.
  repeat (apply elem_of_cons in Hkey as [Hkey|Hkey]; [discriminate|]).
  by apply elem_of_nil in Hkey.
Defined.

Lemma keypad_scan_witness :
  keypad_scan (scan_pressing false 0 0) (keypad_last_state_init, world_dry_4cm)
    = Some (pressed_matrix (scan_pressing false 0 0),
            set_reading "pir_active" (PyInt 1) world_dry_4cm).
Proof.
  apply (keypad_scan_dispatches_rising_edges (scan_pressing false 0 0)
           keypad_last_state_init world_dry_4cm).
  split; [reflexivity|]. repeat constructor.
Defined.

Lemma held_key_is_not_dispatched_again_witness :
  exists w1,
    keypad_scan (scan_pressing true 0 0)
      (keypad_last_state_init, world_dry_4cm)
      = Some (pressed_matrix (scan_pressing true 0 0), w1) /\
    keypad_scan (scan_pressing false 0 0)
      (pressed_matrix (scan_pressing true 0 0), w1)
      = Some (pressed_matrix (scan_pressing false 0 0),
              snd (pir_active false w1)).
Proof.
  apply (held_key_is_not_dispatched_again (scan_pressing true 0 0)
           (scan_pressing false 0 0) keypad_last_state_init world_dry_4cm).
  - split; [reflexivity|]. repeat constructor.
  - intros r c H. exact H.
Defined.

Lemma bot_offset_witness :
  (update_id status_from_stranger.1
   < _offset (bot_run (TelegramBotThread_new "42")
                [PollOk [status_from_42; status_from_stranger];
                 PollNotOk]))%Z.
Proof.
  apply (bot_offset_moves_past_every_update (TelegramBotThread_new "42")
           [PollOk [status_from_42; status_from_stranger]; PollNotOk])
    with (p := PollOk [status_from_42; status_from_stranger]).
  - left.
  - right. left.
Defined.

Lemma bot_answers_only_its_own_chat_witness :
  bot_sent (bot_poll (TelegramBotThread_new "42")
              (PollOk [status_from_stranger])) = [].
Proof.
  apply (bot_answers_only_its_own_chat (TelegramBotThread_new "42")
           [status_from_stranger]).
  repeat constructor. discriminate.
Defined.

Lemma alarm_only_during_enabled_motion_witness :
  buzzer (motion_loop MotionState_init
            [motion_while_disabled; motion_while_enabled])
  = led (motion_loop MotionState_init
           [motion_while_disabled; motion_while_enabled]).
Proof.
  apply (alarm_only_during_enabled_motion MotionState_init
           [motion_while_disabled; motion_while_enabled]).
  repeat split; auto. discriminate.
Defined.

Lemma state_file_is_latched_witness :
  motion_loop (motion_loop MotionState_init [motion_while_disabled])
    [motion_while_enabled; motion_while_enabled]
  = motion_loop MotionState_init [motion_while_disabled].
Proof.
  apply state_file_is_latched_at_motion_onset; try reflexivity.
  repeat constructor.
Defined.

(** One iteration that switches the motor on, with a temperature write of
    the keypad thread falling between the pin write and the store write. *)
Lemma motor_store_agrees_with_pin_witness :
  motor_agrees
    (run_atoms
       [StoreWrite "pir_active" (PyInt 1);
        StoreWrite "soil_dry" (PyInt 1);
        StoreWrite "soil_dry" (PyInt 1);
        PinWrite true;
        StoreWrite "temp_c" (PyFloat 25);
        StoreWrite "motor_on" (PyInt 1);
        StoreWrite "distance_cm" (PyFloat 4);
        StoreWrite "water_height" (PyFloat 6)]
       (readings (World_init None), motor_pin (World_init None))).
Proof.
  destruct (motor_store_agrees_with_pin
              [iteration_at 1000 (Some 4) true None] (World_init None)
              [StoreWrite "temp_c" (PyFloat 25)]
              [StoreWrite "pir_active" (PyInt 1);
               StoreWrite "soil_dry" (PyInt 1);
               StoreWrite "soil_dry" (PyInt 1);
               PinWrite true;
               StoreWrite "temp_c" (PyFloat 25);
               StoreWrite "motor_on" (PyInt 1);
               StoreWrite "distance_cm" (PyFloat 4);
               StoreWrite "water_height" (PyFloat 6)])
    as (_ & H & _).
  apply H.
  - reflexivity.
  - repeat constructor. discriminate.
  - vm_compute.
    apply interleave_left, interleave_left, interleave_left,
      interleave_left, interleave_right, interleave_left, interleave_left,
      interleave_left, interleave_nil.
Defined.
